(** * Commons photo challenge: vote counting

    A shallow embedding of the vote-counting half of the photo challenge
    scripts ([photo_challenge_count_voting.py], and the same functions of
    [photo_challenge_library.py]): the voting-page parser
    [parse_voting_page], the voter check [validate_voters], the vote check
    [validate_votes] and the scoring [count_votes]; and of the functions
    that write the reports: [revise_voting_page], [format_array],
    [create_result_page], [create_winners_page] (of the library) and
    [add_line_breaks]. A function that writes a file is modelled by the text
    it writes.

    Conventions of the embedding.
    - A pandas data frame is a list of rows in index order; a column that can
      hold NaN is an [option].
    - A Python [str] is a [string]; characters are bytes, so the model covers
      ASCII text (Python's Unicode white space, line breaks and digits
      outside ASCII are not modelled).
    - A Python exception is the [Raise] branch of [result].
    - The float column [score2] is an exact rational. *)

From Stdlib Require Import ZArith QArith List String Ascii Bool Lia.
From Stdlib Require Import Permutation Sorted DecimalString.
Import ListNotations.

#[local] Open Scope string_scope.
#[local] Open Scope Z_scope.

(** ** Exceptions *)

Inductive exn : Type :=
| UnboundLocalError (name : string)
| IndexError
| ValueError
| KeyError (name : string).

Inductive result (A : Type) : Type :=
| Ok (a : A)
| Raise (e : exn).

Arguments Ok {A} a.
Arguments Raise {A} e.

Definition bind {A B : Type} (m : result A) (k : A -> result B) : result B :=
  match m with
  | Ok a => k a
  | Raise e => Raise e
  end.

Notation "x <- m ;; k" := (bind m (fun x => k))
  (at level 61, m at next level, right associativity).

(** ** Data frames *)

Module Vote.
(** A row of [vote_df] as the parser builds it:
    columns [num], [award], [voter], [creator], [line]. *)
Record t : Type := mk {
  num : string;
  award : Z;
  voter : string;
  creator : string;
  line : string
}.
End Vote.

Module File.
(** A row of [file_df] as the parser builds it:
    columns [num], [file_name], [title], [creator]. *)
Record t : Type := mk {
  num : string;
  file_name : string;
  title : string;
  creator : string
}.
End File.

Module Voter.
(** A row of [voter_df] as [validate_voters] returns it. [reg_date] is NaN
    for a voter that is an IP address or not registered. *)
Record t : Type := mk {
  voter : string;
  error : Z;
  note : Z;
  edit_count : Z;
  reg_date : option Z
}.
End Voter.

(** A row of [vote_df] after the merge with [voter_df]: the vote and the
    column [error], NaN where the voter has no row in [voter_df]. *)
Record vote_row : Type := mk_row {
  row_vote :> Vote.t;
  error : option Z
}.

Definition with_error (r : vote_row) (e : option Z) : vote_row :=
  mk_row (row_vote r) e.

(** The error codes the scripts write. *)
Definition IP_ADDRESS : Z := 1.
Definition UNREGISTERED : Z := 2.
Definition NEW_ACCOUNT : Z := 3.
Definition LOW_EDITS : Z := 4.
Definition DUPLICATE_VOTE : Z := 5.
Definition UNSIGNED : Z := 6.
Definition SELF_VOTE : Z := 7.
Definition MULTI_PLACEMENT : Z := 8.

(** *** Generic frame operations *)

(** [left.merge(right, on=key, how="left")]: every left row, in order, once
    per right row with the same key (in the right frame's order), or once
    with NaN when no right row matches. *)
Definition merge_left {A B C : Type} (key_l : A -> string) (key_r : B -> string)
    (join : A -> option B -> C) (ldf : list A) (rdf : list B) : list C :=
  flat_map (fun a =>
    match filter (fun b => String.eqb (key_r b) (key_l a)) rdf with
    | [] => [join a None]
    | bs => map (fun b => join a (Some b)) bs
    end) ldf.

(** [df.loc[mask, 'error'] = c] for a boolean mask over the frame's index. *)
Definition loc_set_error (mask : list bool) (c : Z) (df : list vote_row)
    : list vote_row :=
  map (fun br : bool * vote_row =>
         if fst br then with_error (snd br) (Some c) else snd br)
      (combine mask df).

(** [duplicated(keep='first')] over a column of keys: a row is marked when an
    earlier row has the same key. *)
Fixpoint duplicated_from {K : Type} (eqb : K -> K -> bool) (seen keys : list K)
    : list bool :=
  match keys with
  | [] => []
  | k :: ks => existsb (eqb k) seen :: duplicated_from eqb (k :: seen) ks
  end.

Definition duplicated {K : Type} (eqb : K -> K -> bool) (keys : list K)
    : list bool :=
  duplicated_from eqb [] keys.

Definition count_key {K : Type} (eqb : K -> K -> bool) (k : K) (keys : list K)
    : nat :=
  List.length (filter (eqb k) keys).

(** [duplicated(keep=False)]: a row is marked when its key occurs more than
    once in the column. *)
Definition duplicated_all {K : Type} (eqb : K -> K -> bool) (keys : list K)
    : list bool :=
  map (fun k => Nat.ltb 1 (count_key eqb k keys)) keys.

(** A frame with its index labels [0 .. n-1]. *)
Definition indexed {A : Type} (l : list A) : list (nat * A) :=
  combine (seq 0 (List.length l)) l.

(** Value of a boolean series at a label; a label the series does not have
    counts as [False] when two masks are combined with [&]. *)
Fixpoint series_get (i : nat) (s : list (nat * bool)) : bool :=
  match s with
  | [] => false
  | (j, b) :: s' => if Nat.eqb i j then b else series_get i s'
  end.

(** [Series.unique()]: the distinct values in order of first appearance. *)
Fixpoint unique_from (seen l : list string) : list string :=
  match l with
  | [] => []
  | x :: l' =>
      if existsb (String.eqb x) seen then unique_from seen l'
      else x :: unique_from (x :: seen) l'
  end.

Definition unique (l : list string) : list string := unique_from [] l.

(** Comparisons with a NaN-able column; a comparison with NaN is [False]. *)
Definition error_gt0 (e : option Z) : bool :=
  match e with Some x => 0 <? x | None => false end.
Definition error_eq0 (e : option Z) : bool :=
  match e with Some x => x =? 0 | None => false end.
Definition error_ge0 (e : option Z) : bool :=
  match e with Some x => 0 <=? x | None => false end.

(** ** Strings *)

Definition is_digit (c : ascii) : bool :=
  (Nat.leb 48 (nat_of_ascii c)) && (Nat.leb (nat_of_ascii c) 57).

Definition startswith (p s : string) : bool := String.prefix p s.

(** [p in s] *)
Fixpoint contains (p s : string) : bool :=
  String.prefix p s ||
  match s with
  | EmptyString => false
  | String _ s' => contains p s'
  end.

Fixpoint drop (n : nat) (s : string) : string :=
  match n, s with
  | S n', String _ s' => drop n' s'
  | _, _ => s
  end.

Fixpoint take_while (p : ascii -> bool) (s : string) : string :=
  match s with
  | EmptyString => EmptyString
  | String c s' => if p c then String c (take_while p s') else EmptyString
  end.

Fixpoint drop_while (p : ascii -> bool) (s : string) : string :=
  match s with
  | EmptyString => EmptyString
  | String c s' => if p c then drop_while p s' else s
  end.

(** [s.replace(old, new)] for a non-empty [old]: the occurrences of [old]
    from left to right, without overlap. [skip] characters of an occurrence
    just replaced are still to be passed over. *)
Fixpoint replace_from (skip : nat) (old new s : string) : string :=
  match s with
  | EmptyString => EmptyString
  | String c s' =>
      match skip with
      | S k => replace_from k old new s'
      | O =>
          if String.prefix old s
          then new ++ replace_from (String.length old - 1) old new s'
          else String c (replace_from 0 old new s')
      end
  end.

Definition replace (old new s : string) : string := replace_from 0 old new s.

(** [s.split(sep)] for a separator of one character. *)
Fixpoint split (sep : ascii) (s : string) : list string :=
  match s with
  | EmptyString => [EmptyString]
  | String c s' =>
      if Ascii.eqb c sep then EmptyString :: split sep s'
      else match split sep s' with
           | [] => [String c EmptyString]
           | p :: ps => String c p :: ps
           end
  end.

(** White space of [str.strip()] among the ASCII characters. *)
Definition is_space (c : ascii) : bool :=
  let n := nat_of_ascii c in
  (Nat.leb 9 n && Nat.leb n 13) || (Nat.leb 28 n && Nat.leb n 32).

Fixpoint lstrip (s : string) : string :=
  match s with
  | EmptyString => EmptyString
  | String c s' => if is_space c then lstrip s' else s
  end.

Fixpoint rstrip (s : string) : string :=
  match s with
  | EmptyString => EmptyString
  | String c s' =>
      match rstrip s' with
      | EmptyString => if is_space c then EmptyString else String c EmptyString
      | r => String c r
      end
  end.

Definition strip (s : string) : string := rstrip (lstrip s).

(** Line boundaries of [str.splitlines()] among the ASCII characters. *)
Definition is_linebreak (c : ascii) : bool :=
  let n := nat_of_ascii c in
  (Nat.leb 10 n && Nat.leb n 13) || (Nat.leb 28 n && Nat.leb n 30).

(** [s.splitlines()]; [after_cr] remembers a carriage return, whose line feed
    belongs to the same line boundary. *)
Fixpoint splitlines_from (after_cr : bool) (s : string) : list string :=
  match s with
  | EmptyString => []
  | String c s' =>
      if after_cr && Ascii.eqb c "010"%char then splitlines_from false s'
      else if is_linebreak c
      then EmptyString :: splitlines_from (Ascii.eqb c "013"%char) s'
      else match splitlines_from false s' with
           | [] => [String c EmptyString]
           | l :: ls => String c l :: ls
           end
  end.

Definition splitlines (s : string) : list string := splitlines_from false s.

(** [int(s)] for a string of decimal digits. *)
Fixpoint int_from (acc : Z) (s : string) : option Z :=
  match s with
  | EmptyString => Some acc
  | String c s' =>
      if is_digit c
      then int_from (10 * acc + Z.of_nat (nat_of_ascii c - 48)) s'
      else None
  end.

Definition int (s : string) : result Z :=
  match s with
  | EmptyString => Raise ValueError
  | _ => match int_from 0 s with
         | Some z => Ok z
         | None => Raise ValueError
         end
  end.

(** *** The regular expressions of the parser

    A pattern is given by its matcher at one position of the text: the text
    of group 1 when the pattern matches the beginning of the string.
    [search] tries the positions from left to right, as [re.search] does. *)

Definition pattern : Type := string -> option string.

Fixpoint search (p : pattern) (text : string) : option string :=
  match p text with
  | Some g => Some g
  | None =>
      match text with
      | EmptyString => None
      | String _ text' => search p text'
      end
  end.

(** [substr(pattern, text)]: group 1 of the first match, stripped, or the
    empty string. *)
Definition substr (p : pattern) (text : string) : string :=
  match search p text with
  | Some g => strip g
  | None => EmptyString
  end.

Definition after_prefix (p s : string) : option string :=
  if String.prefix p s then Some (drop (String.length p) s) else None.

(** A group [([^...]+)]: the longest run of characters outside [stop], at
    least one. *)
Definition group_until (stop : ascii -> bool) (s : string) : option string :=
  match take_while (fun c => negb (stop c)) s with
  | EmptyString => None
  | g => Some g
  end.

Definition is_bar (c : ascii) : bool := Ascii.eqb c "|"%char.
Definition is_bar_or_bracket (c : ascii) : bool :=
  Ascii.eqb c "|"%char || Ascii.eqb c "]"%char.

(** The pattern of the section number: [===], then digits, possibly none, as
    group 1, then a dot. *)
Definition re_section_num : pattern := fun s =>
  match after_prefix "===" s with
  | Some r =>
      if String.prefix "." (drop_while is_digit r)
      then Some (take_while is_digit r) else None
  | None => None
  end.

(** [<span[^>]*>(\d+)</span>], the pattern of the library's parser. *)
Definition re_anchor_num : pattern := fun s =>
  match after_prefix "<span" s with
  | Some r =>
      match drop_while (fun c => negb (Ascii.eqb c ">"%char)) r with
      | String _ r' =>
          match take_while is_digit r' with
          | EmptyString => None
          | ds => if String.prefix "</span>" (drop_while is_digit r')
                  then Some ds else None
          end
      | EmptyString => None
      end
  | None => None
  end.

(** [\[\[User:([^|]+)] *)
Definition re_user : pattern := fun s =>
  match after_prefix "[[User:" s with
  | Some r => group_until is_bar r
  | None => None
  end.

(** [\[\[Special:Contributions/([^|\]]+)] *)
Definition re_contributions : pattern := fun s =>
  match after_prefix "[[Special:Contributions/" s with
  | Some r => group_until is_bar_or_bracket r
  | None => None
  end.

Fixpoint first_prefix (ps : list string) (s : string) : option string :=
  match ps with
  | [] => None
  | p :: ps' =>
      match after_prefix p s with
      | Some r => Some r
      | None => first_prefix ps' s
      end
  end.

(** [\[\[(?:[Uu]ser|[Bb]enutzer|[Uu]suario):([^|\]]+)]; no two of the
    alternatives match at the same position. *)
Definition re_localized_user : pattern := fun s =>
  match first_prefix ["[[User:"; "[[user:"; "[[Benutzer:"; "[[benutzer:";
                      "[[Usuario:"; "[[usuario:"] s with
  | Some r => group_until is_bar_or_bracket r
  | None => None
  end.

(** [{{(\d)/3\*}}] *)
Definition re_award : pattern := fun s =>
  match after_prefix "{{" s with
  | Some (String d r) =>
      if is_digit d && String.prefix "/3*}}" r
      then Some (String d EmptyString) else None
  | _ => None
  end.

(** ** parse_voting_page *)

(** The local variables that the loop assigns on some lines only; [None] is
    a variable not assigned yet. *)
Record locals : Type := mk_locals {
  num : option string;
  fname : option string;
  title : option string;
  creator : option string;
  voter : option string
}.

Record parser_state : Type := mk_state {
  vars : locals;
  files : list File.t;
  votes : list Vote.t
}.

(** Reading a local variable. *)
Definition read (name : string) (x : option string) : result string :=
  match x with
  | Some v => Ok v
  | None => Raise (UnboundLocalError name)
  end.

(** [part[i]] *)
Definition item (part : list string) (i : nat) : result string :=
  match nth_error part i with
  | Some x => Ok x
  | None => Raise IndexError
  end.

(** The double quote character. *)
Definition dquote : string := String (ascii_of_nat 34) EmptyString.

Definition signature_talk : string :=
  "<span class=" ++ dquote ++ "signature-talk" ++ dquote
  ++ ">{{int:Talkpagelinktext}}</span>".

(** The body of the loop, for a line already stripped. [section_num] is the
    pattern that reads the number off a section line. *)
Definition parse_line (section_num : pattern) (st : parser_state)
    (line : string) : result parser_state :=
  let v := vars st in
  (* Section marker *)
  let v :=
    if startswith "===" line
    then mk_locals (Some (substr section_num line)) (Some "") (Some "")
                   (Some "") (Some "")
    else v in
  if contains "[[File:" line then
    (* File lines *)
    let part := split "|" (replace "[" "|" (replace "[[File:" "" line)) in
    p0 <- item part 0 ;;
    let v := mk_locals (num v) (Some (strip p0)) (title v) (creator v) (voter v) in
    if Nat.leb 5 (List.length part) then
      p4 <- item part 4 ;;
      Ok (mk_state (mk_locals (num v) (fname v) (Some (strip p4)) (creator v)
                              (voter v))
                   (files st) (votes st))
    else Ok (mk_state v (files st) (votes st))
  else if startswith "<!-- '''C" line || startswith "'''C" line then
    (* Creator *)
    let creator' := substr re_user line in
    let v := mk_locals (num v) (fname v) (title v) (Some creator') (voter v) in
    n <- read "num" (num v) ;;
    f <- read "fname" (fname v) ;;
    t <- read "title" (title v) ;;
    Ok (mk_state v (files st ++ [File.mk n f t creator']) (votes st))
  else if contains "*}}" line then
    (* Votes *)
    f <- read "fname" (fname v) ;;
    if negb (String.eqb f "Sample-image.svg") then
      let voter' :=
        if contains "[[Special:Contributions/" line
        then substr re_contributions line
        else substr re_localized_user line in
      let v := mk_locals (num v) (fname v) (title v) (creator v) (Some voter') in
      let award := substr re_award line in
      let line := replace signature_talk "" line in
      if Nat.ltb 0 (String.length award) then
        n <- read "num" (num v) ;;
        a <- int award ;;
        c <- read "creator" (creator v) ;;
        Ok (mk_state v (files st) (votes st ++ [Vote.mk n a voter' c line]))
      else Ok (mk_state v (files st) (votes st))
    else Ok (mk_state v (files st) (votes st))
  else Ok (mk_state v (files st) (votes st)).

Fixpoint parse_lines (section_num : pattern) (st : parser_state)
    (lines : list string) : result parser_state :=
  match lines with
  | [] => Ok st
  | line :: lines' =>
      st' <- parse_line section_num st (strip line) ;;
      parse_lines section_num st' lines'
  end.

Definition parse_with (section_num : pattern) (wiki_text : string)
    : result (list File.t * list Vote.t) :=
  st <- parse_lines section_num
          (mk_state (mk_locals None None None None None) [] [])
          (splitlines wiki_text) ;;
  Ok (files st, votes st).

(** [parse_voting_page] of [photo_challenge_count_voting.py]. *)
Definition parse_voting_page (wiki_text : string)
    : result (list File.t * list Vote.t) :=
  parse_with re_section_num wiki_text.

Module Library.
(** [parse_voting_page] of [photo_challenge_library.py]: the same loop; the
    number of a section is read off its anchor. *)
Definition parse_voting_page (wiki_text : string)
    : result (list File.t * list Vote.t) :=
  parse_with re_anchor_num wiki_text.
End Library.

(** ** validate_voters *)

(** What the wiki (a [pywikibot.User]) answers about a name: [editCount()],
    [registration()] as a time in seconds (read only for a registered user),
    [isRegistered()], [is_blocked()] and the page titles of
    [contributions()]. *)
Record user : Type := mk_user {
  editCount : Z;
  registration : Z;
  isRegistered : bool;
  is_blocked : bool;
  contributions : list string
}.

(** [re.fullmatch(r"[0-9.]+", name)] *)
Definition is_ip_address (name : string) : bool :=
  match list_ascii_of_string name with
  | [] => false
  | cs => forallb (fun c => is_digit c || Ascii.eqb c "."%char) cs
  end.

(** [page_name.count('/')] *)
Definition count_slash (page_name : string) : nat :=
  List.length (filter (fun c => Ascii.eqb c "/"%char)
                      (list_ascii_of_string page_name)).

(** A page directly under the challenge: a picture entered in a challenge. *)
Definition is_challenge_page (page_name : string) : bool :=
  String.prefix "Commons:Photo challenge/" page_name &&
  Nat.eqb (count_slash page_name) 1.

(** [(start_date - reg_date).days]: whole days, rounded down. *)
Definition days_between (start_date reg_date : Z) : Z :=
  (start_date - reg_date) / 86400.

(** The column that the two checks write to. *)
Inductive column : Type := error_column | note_column.

(** The cells of one row of [voter_df] while the loop runs; [edit_count] and
    [reg_date] are NaN until the loop writes them. *)
Record voter_cells : Type := mk_cells {
  c_error : Z;
  c_note : Z;
  c_edit_count : option Z;
  c_reg_date : option Z
}.

Definition set_cell (col : column) (v : Z) (c : voter_cells) : voter_cells :=
  match col with
  | error_column => mk_cells v (c_note c) (c_edit_count c) (c_reg_date c)
  | note_column => mk_cells (c_error c) v (c_edit_count c) (c_reg_date c)
  end.

(** The body of the loop over the rows of [voter_df]. *)
Definition check_voter (site : string -> user) (start_date : Z) (name : string)
    : voter_cells :=
  let row := mk_cells 0 0 None None in
  if is_ip_address name then set_cell error_column IP_ADDRESS row
  else
    let u := site name in
    let edit_count := editCount u in
    let reg_date := registration u in
    let row := mk_cells (c_error row) (c_note row) (Some edit_count) None in
    if isRegistered u then
      let days_active := days_between start_date reg_date in
      let row := mk_cells (c_error row) (if is_blocked u then 1 else 0)
                          (c_edit_count row) (Some reg_date) in
      let error :=
        if (days_active <? 10) || (edit_count <? 50) then
          if existsb is_challenge_page (contributions u)
          then note_column else error_column
        else error_column in
      let row := if days_active <? 10 then set_cell error NEW_ACCOUNT row else row in
      let row := if edit_count <? 50 then set_cell error LOW_EDITS row else row in
      row
    else set_cell error_column UNREGISTERED row.

Definition is_some {A : Type} (x : option A) : bool :=
  match x with Some _ => true | None => false end.

(** [validate_voters(site, vote_df, challenge)]. [start_date] stands for the
    time the function reads off [challenge], day 30 of the month of the
    challenge; [site] for the lookups on the wiki. The column [edit_count]
    exists in [voter_df] only once the loop has written it for some row;
    reading it otherwise is a [KeyError]. *)
Definition validate_voters (site : string -> user) (start_date : Z)
    (vote_df : list Vote.t) : result (list Voter.t) :=
  let voter_list := unique (map Vote.voter vote_df) in
  let voter_list := filter (fun v => negb (String.eqb v "")) voter_list in
  let rows := map (fun v => (v, check_voter site start_date v)) voter_list in
  if existsb (fun r : string * voter_cells => is_some (c_edit_count (snd r))) rows
  then
    Ok (map (fun r : string * voter_cells =>
               Voter.mk (fst r) (c_error (snd r)) (c_note (snd r))
                        (match c_edit_count (snd r) with
                         | Some n => n
                         | None => -1
                         end)
                        (c_reg_date (snd r)))
            rows)
  else Raise (KeyError "edit_count").

(** ** validate_votes *)

Definition num_voter_eqb (a b : string * string) : bool :=
  String.eqb (fst a) (fst b) && String.eqb (snd a) (snd b).
Definition award_voter_eqb (a b : Z * string) : bool :=
  Z.eqb (fst a) (fst b) && String.eqb (snd a) (snd b).

Definition num_voter (r : vote_row) : string * string :=
  (Vote.num r, Vote.voter r).
Definition award_voter (r : vote_row) : Z * string :=
  (Vote.award r, Vote.voter r).

(** [vote_df.merge(voter_df[["voter", "error"]], on="voter", how="left")] *)
Definition merge_voter_error (vote_df : list Vote.t) (voter_df : list Voter.t)
    : list vote_row :=
  merge_left Vote.voter Voter.voter
    (fun v w => mk_row v (option_map Voter.error w)) vote_df voter_df.

(** Disqualified voters may still award High Commendations. *)
Definition amnesty (df : list vote_row) : list vote_row :=
  loc_set_error
    (map (fun r : vote_row => (Vote.award r =? 0) && error_gt0 (error r)) df) 0 df.

(** A user voting for the same image twice: the later votes get 5. *)
Definition mark_duplicates (df : list vote_row) : list vote_row :=
  loc_set_error (duplicated num_voter_eqb (map num_voter df)) DUPLICATE_VOTE df.

(** Unsigned votes get 6. *)
Definition mark_unsigned (df : list vote_row) : list vote_row :=
  loc_set_error (map (fun r : vote_row => String.eqb (Vote.voter r) "") df) UNSIGNED df.

(** Votes of the image's creator get 7. *)
Definition mark_self_votes (df : list vote_row) : list vote_row :=
  loc_set_error
    (map (fun r : vote_row => String.eqb (Vote.voter r) (Vote.creator r)) df) SELF_VOTE df.

(** [mask1 = (award > 0) & (error == 0)] *)
Definition mask1_row (r : vote_row) : bool :=
  (0 <? Vote.award r) && error_eq0 (error r).

(** [mask2 = vote_df[mask1].duplicated(subset=["award", "voter"], keep=False)],
    a series over the labels of the rows that [mask1] keeps. *)
Definition mask2 (df : list vote_row) : list (nat * bool) :=
  let sub := filter (fun ir : nat * vote_row => mask1_row (snd ir)) (indexed df) in
  combine (map fst sub)
          (duplicated_all award_voter_eqb
             (map (fun ir : nat * vote_row => award_voter (snd ir)) sub)).

(** Votes of a voter who gave the same place to several images get 8. *)
Definition mark_multiple_placement (df : list vote_row) : list vote_row :=
  let m2 := mask2 df in
  loc_set_error
    (map (fun ir : nat * vote_row => mask1_row (snd ir) && series_get (fst ir) m2)
         (indexed df))
    MULTI_PLACEMENT df.

Definition validate_votes (vote_df : list Vote.t) (voter_df : list Voter.t)
    : list vote_row :=
  let vote_df := merge_voter_error vote_df voter_df in
  let vote_df := amnesty vote_df in
  let vote_df := mark_duplicates vote_df in
  let vote_df := mark_unsigned vote_df in
  let vote_df := mark_self_votes vote_df in
  mark_multiple_placement vote_df.

(** ** count_votes *)

Module Scored.
(** A row of the frame [count_votes] returns: the entry with the columns
    [score], [support], [score2] (NaN for an entry without counted votes)
    and [rank]. *)
Record t : Type := mk {
  file : File.t;
  score : Z;
  support : Z;
  score2 : option Q;
  rank : Z
}.
End Scored.

Definition votes_of (n : string) (votes : list vote_row) : list vote_row :=
  filter (fun r : vote_row => String.eqb (Vote.num r) n) votes.

Definition sum_awards (votes : list vote_row) : Z :=
  fold_right (fun (r : vote_row) acc => Vote.award r + acc) 0 votes.

(** [votes.groupby("num", as_index=False)["award"].sum()]: one row per
    distinct [num]. pandas orders the groups by key; the order plays no part
    in the left merges that consume the two frames. *)
Definition groupby_sum (votes : list vote_row) : list (string * Z) :=
  map (fun n => (n, sum_awards (votes_of n votes)))
      (unique (map (fun r : vote_row => Vote.num r) votes)).

(** [votes.groupby("num", as_index=False)["award"].count()] *)
Definition groupby_count (votes : list vote_row) : list (string * Z) :=
  map (fun n => (n, Z.of_nat (List.length (votes_of n votes))))
      (unique (map (fun r : vote_row => Vote.num r) votes)).

(** [file_df] between the merges and the final [fillna]. *)
Record merged_file : Type := mk_merged {
  m_file : File.t;
  m_score : option Z;
  m_support : option Z
}.

(** [Series.max()], which skips NaN and is NaN for an all-NaN column. *)
Definition column_max (col : list (option Z)) : option Z :=
  fold_right (fun x acc =>
    match x, acc with
    | Some a, Some b => Some (Z.max a b)
    | Some a, None => Some a
    | None, _ => acc
    end) None col.

(** [score + support / max_support], NaN as soon as one operand is. *)
Definition score2_of (max_support : option Z) (r : merged_file) : option Q :=
  match m_score r, m_support r, max_support with
  | Some s, Some p, Some m => Some (inject_Z s + inject_Z p / inject_Z m)%Q
  | _, _, _ => None
  end.

Definition Qlt_bool (a b : Q) : bool := negb (Qle_bool b a).

(** Order of [sort_values(by="score2", ascending=False)]: larger keys first,
    NaN last. [before a b] holds when a row with key [b] must not be moved in
    front of a row with key [a]. *)
Definition before (a b : option Q) : bool :=
  match a, b with
  | Some x, Some y => Qle_bool y x
  | Some _, None => true
  | None, Some _ => false
  | None, None => true
  end.

Fixpoint insert_sorted {A : Type} (key : A -> option Q) (x : A) (l : list A)
    : list A :=
  match l with
  | [] => [x]
  | y :: l' =>
      if before (key x) (key y) then x :: l
      else y :: insert_sorted key x l'
  end.

(** The sort is modelled as a stable one; pandas' default sort may order rows
    of equal key differently, and nothing below depends on that order. *)
Definition sort_values {A : Type} (key : A -> option Q) (l : list A) : list A :=
  fold_right (insert_sorted key) [] l.

Definition count_greater (q : Q) (keys : list (option Q)) : nat :=
  List.length
    (filter (fun k => match k with Some x => Qlt_bool q x | None => false end)
            keys).

(** [Series.rank(method="min", ascending=False)]: one plus the number of
    values strictly greater; NaN keeps NaN. *)
Definition rank_min (keys : list (option Q)) : list (option Z) :=
  map (option_map (fun q => 1 + Z.of_nat (count_greater q keys))) keys.

Definition fillna0 (x : option Z) : Z :=
  match x with Some v => v | None => 0 end.

Definition count_votes (vote_df : list vote_row) (file_df : list File.t)
    : list Scored.t :=
  let votes := filter (fun r : vote_row => error_ge0 (error r)) vote_df in
  let df1 := groupby_sum votes in
  let df2 := groupby_count votes in
  let file_df :=
    merge_left File.num fst
      (fun (f : File.t) (s : option (string * Z)) => (f, option_map snd s))
      file_df df1 in
  let file_df :=
    merge_left (fun fs : File.t * option Z => File.num (fst fs)) fst
      (fun (fs : File.t * option Z) (p : option (string * Z)) =>
         mk_merged (fst fs) (snd fs) (option_map snd p))
      file_df df2 in
  let max_support := option_map (fun m => m + 1) (column_max (map m_support file_df)) in
  let file_df := map (fun r => (r, score2_of max_support r)) file_df in
  let file_df := sort_values snd file_df in
  let ranks := rank_min (map snd file_df) in
  map (fun rk : (merged_file * option Q) * option Z =>
         Scored.mk (m_file (fst (fst rk)))
                   (fillna0 (m_score (fst (fst rk))))
                   (fillna0 (m_support (fst (fst rk))))
                   (snd (fst rk))
                   (fillna0 (snd rk)))
      (combine file_df ranks).

(** ** Report text *)

Definition nl : string := String (ascii_of_nat 10) EmptyString.

(** [str(n)] for an integer. *)
Definition string_of_Z (z : Z) : string := NilZero.string_of_int (Z.to_int z).

(** [len(s)] *)
Definition len (s : string) : Z := Z.of_nat (String.length s).

(** [sep.join(ls)] *)
Definition join (sep : string) (ls : list string) : string := String.concat sep ls.

(** [s.split()]: the words between runs of white space. [words_from] gives
    the characters up to the first white space and the words after it. *)
Fixpoint words_from (s : string) : string * list string :=
  match s with
  | EmptyString => (EmptyString, [])
  | String c s' =>
      let (w, ws) := words_from s' in
      if is_space c
      then (EmptyString, match w with EmptyString => ws | _ => w :: ws end)
      else (String c w, ws)
  end.

Definition split_whitespace (s : string) : list string :=
  let (w, ws) := words_from s in
  match w with EmptyString => ws | _ => w :: ws end.

(** [s.split(sep)] for a separator of any length above zero. [skip]
    characters of a separator just found are still to be passed over. *)
Fixpoint split_from (skip : nat) (sep s : string) : list string :=
  match s with
  | EmptyString => [EmptyString]
  | String c s' =>
      match skip with
      | S k => split_from k sep s'
      | O =>
          if String.prefix sep s
          then EmptyString :: split_from (String.length sep - 1) sep s'
          else match split_from 0 sep s' with
               | [] => [String c EmptyString]
               | p :: ps => String c p :: ps
               end
      end
  end.

Definition split_on (sep s : string) : list string := split_from 0 sep s.

(** *** add_line_breaks *)

(** The variables of the loop of [add_line_breaks]. *)
Record wrap_state : Type := mk_wrap {
  lines : list string;
  current_line : list string;
  current_len : Z
}.

Definition is_nil {A : Type} (l : list A) : bool :=
  match l with [] => true | _ => false end.

(** The body of the loop, for one word. *)
Definition add_word (max_len : Z) (st : wrap_state) (word : string) : wrap_state :=
  if current_len st + len word + (if is_nil (current_line st) then 0 else 1)
     <=? max_len
  then
    let current_line' := (current_line st ++ [word])%list in
    mk_wrap (lines st) current_line'
            (current_len st + len word
             + (if is_nil (removelast current_line') then 0 else 1))
  else
    mk_wrap (lines st ++ [join " " (current_line st)]) [word] (len word).

Definition add_line_breaks (sentence : string) (max_len : Z) : string :=
  let words := split_whitespace sentence in
  let st := fold_left (add_word max_len) words (mk_wrap [] [] 0) in
  let lines :=
    if is_nil (current_line st) then lines st
    else (lines st ++ [join " " (current_line st)])%list in
  join " <br/>" lines.

(** *** format_array *)

Definition voting_link (challenge n : string) : string :=
  "[[Commons:Photo challenge/" ++ challenge ++ "/Voting#" ++ n ++ "|" ++ n ++ "]]".

Definition format_array (vec : list string) (challenge : string) : string :=
  let nums := map (voting_link challenge) vec in
  match nums with
  | [] => ""
  | [n] => n
  | [_; _] => join " and " nums
  | _ => join ", " (removelast nums) ++ " and " ++ last nums ""
  end.

(** *** create_result_page *)

(** One row of the table of results. *)
Definition result_row (file : Scored.t) : string :=
  let fname := File.file_name (Scored.file file) in
  let user := File.creator (Scored.file file) in
  let user_str := "[[User:" ++ user ++ "|" ++ user ++ "]] ([[User talk:" ++ user
                  ++ "|" ++ signature_talk ++ "]])" in
  "|-" ++ nl ++ "| [[File:" ++ fname ++ "|120px]] || " ++ user_str ++ " || "
  ++ string_of_Z (Scored.rank file) ++ " || " ++ string_of_Z (Scored.score file)
  ++ " || " ++ string_of_Z (Scored.support file) ++ nl.

(** The loop over the rows of [file_df], which stops at the first row whose
    support is 0. *)
Fixpoint write_rows (file_df : list Scored.t) : string :=
  match file_df with
  | [] => ""
  | file :: rest =>
      if Scored.support file =? 0 then ""
      else result_row file ++ write_rows rest
  end.

(** [create_result_page(file_df, n_voter, file_name, errors)]: the text
    written to the file. *)
Definition create_result_page (file_df : list Scored.t) (n_voter : Z)
    (errors : list string) : string :=
  let n_creator :=
    List.length (unique (map (fun e => File.creator (Scored.file e)) file_df)) in
  let n_images :=
    List.length (unique (map (fun e => File.num (Scored.file e)) file_df)) in
  "*Number of contributors: " ++ string_of_Z (Z.of_nat n_creator) ++ nl
  ++ "*Number of voters:       " ++ string_of_Z n_voter ++ nl
  ++ "*Number of images:       " ++ string_of_Z (Z.of_nat n_images) ++ nl ++ nl
  ++ "The Score is the sum of the 3*/2*/1* votes. "
  ++ "The Support is the count of 3*/2*/1* votes and 0* likes. I"
  ++ "In the event of a tie vote, the support decides the rank." ++ nl ++ nl
  ++ "{| class=" ++ dquote ++ "sortable wikitable" ++ dquote ++ nl ++ "|-" ++ nl
  ++ "! class=" ++ dquote ++ "unsortable" ++ dquote ++ "| Image" ++ nl
  ++ "! Author" ++ nl
  ++ "! data-sort-type=" ++ dquote ++ "number" ++ dquote ++ " | Rank" ++ nl
  ++ "! data-sort-type=" ++ dquote ++ "number" ++ dquote ++ " | Score" ++ nl
  ++ "! data-sort-type=" ++ dquote ++ "number" ++ dquote ++ " | Support" ++ nl
  ++ write_rows file_df
  ++ "|}" ++ nl ++ nl
  ++ String.concat "" (map (fun error => error ++ nl) errors).

(** *** create_winners_page *)

(** [file_df.iloc[i]] *)
Definition iloc (file_df : list Scored.t) (i : nat) : result Scored.t :=
  match nth_error file_df i with
  | Some row => Ok row
  | None => Raise IndexError
  end.

(** The lines of the winners table for the row at position [i]. *)
Definition winner_lines (file_df : list Scored.t) (i : nat) : result string :=
  row <- iloc file_df i ;;
  let k := string_of_Z (Z.of_nat (i + 1)) in
  let title := add_line_breaks (File.title (Scored.file row)) 40 in
  Ok ("|image_" ++ k ++ "  = " ++ File.file_name (Scored.file row) ++ nl
      ++ "|title_" ++ k ++ "  = " ++ title ++ nl
      ++ "|author_" ++ k ++ " = " ++ File.creator (Scored.file row) ++ nl
      ++ "|score_" ++ k ++ "  = " ++ string_of_Z (Scored.score row) ++ nl
      ++ "|rank_" ++ k ++ "   = " ++ string_of_Z (Scored.rank row) ++ nl
      ++ "|num_" ++ k ++ "    = " ++ File.num (Scored.file row) ++ nl).

Module LibraryReport.
(** [create_winners_page(file_df, file_name, challenge)] of
    [photo_challenge_library.py]: the text written to the file when the
    function returns. *)
Definition create_winners_page (file_df : list Scored.t) (challenge : string)
    : result string :=
  match split_on " - " challenge with
  | [year; month; theme] =>
      w1 <- winner_lines file_df 0 ;;
      w2 <- winner_lines file_df 1 ;;
      w3 <- winner_lines file_df 2 ;;
      Ok ("{{Photo challenge winners table" ++ nl
          ++ "|page     = Photo challenge/" ++ challenge ++ nl
          ++ "|theme    = " ++ theme ++ nl
          ++ "|height   = {{{height|240}}}" ++ nl
          ++ w1 ++ w2 ++ w3
          ++ "}}" ++ nl ++ nl)
  | _ => Raise ValueError
  end.
End LibraryReport.

(** *** revise_voting_page *)

(** The dash of the collapse header, in UTF-8. *)
Definition en_dash : string :=
  String (ascii_of_nat 226) (String (ascii_of_nat 128)
    (String (ascii_of_nat 147) EmptyString)).

Definition cstr : string :=
  "{{Collapse top|Current votes " ++ en_dash
  ++ " please choose your own winners before looking}}".

(** The body of the loop for one line: the line to write, or [None] where
    the loop continues without writing. *)
Definition revise_line (line : string) : option string :=
  if startswith "<!-- '''Creator" line
  then Some (replace cstr "" (replace " -->" "" (replace "<!-- " "" line)))
  else if startswith "{{Collapse bottom}}" line then None
  else if startswith "'''Voting will end" line
  then Some (replace "Voting will end" "Voting ended" line)
  else Some line.

Fixpoint revise_lines (lines : list string) : string :=
  match lines with
  | [] => ""
  | line :: rest =>
      match revise_line line with
      | Some line' => line' ++ nl ++ revise_lines rest
      | None => revise_lines rest
      end
  end.

(** [revise_voting_page(wiki_text, file_name)] of
    [photo_challenge_count_voting.py]: the text written to the file. *)
Definition revise_voting_page (wiki_text : string) : string :=
  revise_lines (splitlines wiki_text).

(** * Vocabulary of the properties *)

(** The codes an award-0 vote can end with: nothing positive except the
    vote-level codes 5, 6 and 7. *)
Definition vote_level_only (e : option Z) : Prop :=
  forall x, e = Some x -> 0 < x ->
    x = DUPLICATE_VOTE \/ x = UNSIGNED \/ x = SELF_VOTE.

(** The votes that compete with [r] for one place of one voter: the rows of
    the frame with award > 0 and error 0 that have [r]'s award and voter. *)
Definition placement_group (df : list vote_row) (r : vote_row) : list vote_row :=
  filter (fun r' : vote_row => award_voter_eqb (award_voter r) (award_voter r'))
         (filter mask1_row df).

(** The frame the last pass of [validate_votes] works on. *)
Definition before_multiple_placement (vote_df : list Vote.t)
    (voter_df : list Voter.t) : list vote_row :=
  mark_self_votes (mark_unsigned (mark_duplicates
    (amnesty (merge_voter_error vote_df voter_df)))).

Definition amnesty_row (r : vote_row) : vote_row :=
  if (Vote.award r =? 0) && error_gt0 (error r) then with_error r (Some 0) else r.
Definition unsigned_row (r : vote_row) : vote_row :=
  if String.eqb (Vote.voter r) "" then with_error r (Some UNSIGNED) else r.
Definition self_vote_row (r : vote_row) : vote_row :=
  if String.eqb (Vote.voter r) (Vote.creator r)
  then with_error r (Some SELF_VOTE) else r.

(** The row the merge makes of a vote when no two rows of [voter_df] have the
    same voter. *)
Definition merged_row (voter_df : list Voter.t) (v : Vote.t) : vote_row :=
  mk_row v (option_map Voter.error
    (find (fun w => String.eqb (Voter.voter w) (Vote.voter v)) voter_df)).

Definition vote_key (v : Vote.t) : string * string := (Vote.num v, Vote.voter v).

(** Does a vote above position [j] have the entry and voter of [v]? *)
Definition earlier_same_key (vote_df : list Vote.t) (j : nat) (v : Vote.t) : bool :=
  existsb (num_voter_eqb (vote_key v)) (firstn j (map vote_key vote_df)).

(** [accepted_for k r]: row [r] is a vote for the entry and by the voter of
    the key [k], and its error is 0. *)
Definition accepted_for (k : string * string) (r : vote_row) : bool :=
  num_voter_eqb (num_voter r) k && error_eq0 (error r).

(** The row of the vote at position [j] when the duplicates are marked. *)
Definition row_after_duplicates (vote_df : list Vote.t) (voter_df : list Voter.t)
    (j : nat) (v : Vote.t) : vote_row :=
  let r1 := amnesty_row (merged_row voter_df v) in
  if earlier_same_key vote_df j v then with_error r1 (Some DUPLICATE_VOTE) else r1.

(** The row of the vote at position [j] when the last pass starts. *)
Definition row_before_last (vote_df : list Vote.t) (voter_df : list Voter.t)
    (j : nat) (v : Vote.t) : vote_row :=
  self_vote_row (unsigned_row (row_after_duplicates vote_df voter_df j v)).

(** The votes [count_votes] counts: those whose error is not NaN and not
    negative. *)
Definition counted (vote_df : list vote_row) : list vote_row :=
  filter (fun r : vote_row => error_ge0 (error r)) vote_df.

Definition has_votes (n : string) (votes : list vote_row) : bool :=
  existsb (fun r : vote_row => String.eqb (Vote.num r) n) votes.

(** Columns [score] and [support] of an entry after the two left merges. *)
Definition score_col (votes : list vote_row) (n : string) : option Z :=
  if has_votes n votes then Some (sum_awards (votes_of n votes)) else None.
Definition support_col (votes : list vote_row) (n : string) : option Z :=
  if has_votes n votes then Some (Z.of_nat (List.length (votes_of n votes)))
  else None.

Definition merged_files (vote_df : list vote_row) (file_df : list File.t)
    : list merged_file :=
  map (fun f => mk_merged f (score_col (counted vote_df) (File.num f))
                            (support_col (counted vote_df) (File.num f)))
      file_df.

Definition key_of (s p m : Z) : Q := (inject_Z s + inject_Z p / inject_Z m)%Q.

(** Order of two entries by score, then by support. *)
Definition key_ltb (s p s' p' : Z) : bool :=
  (s <? s') || ((s =? s') && (p <? p')).

(** The row of the returned frame for a merged row and its key, given the
    column of all keys. *)
Definition final_row (keys : list (option Q)) (x : merged_file * option Q)
    : Scored.t :=
  Scored.mk (m_file (fst x))
            (fillna0 (m_score (fst x)))
            (fillna0 (m_support (fst x)))
            (snd x)
            (fillna0 (option_map
               (fun q => 1 + Z.of_nat (count_greater q keys)) (snd x))).

Definition max_support_of (vote_df : list vote_row) (file_df : list File.t)
    : option Z :=
  option_map (fun m => m + 1)
    (column_max (map m_support (merged_files vote_df file_df))).

Definition sorted_files (vote_df : list vote_row) (file_df : list File.t)
    : list (merged_file * option Q) :=
  sort_values snd
    (map (fun r => (r, score2_of (max_support_of vote_df file_df) r))
         (merged_files vote_df file_df)).

(** [outranks a e]: entry [e] has counted votes and a key strictly greater
    than the key of [a], by score and then by support. *)
Definition outranks (a e : Scored.t) : bool :=
  (0 <? Scored.support e) &&
  key_ltb (Scored.score a) (Scored.support a) (Scored.score e) (Scored.support e).

(** Strict order of the tie-break key: by score, then by support. *)
Definition key_lt (x y : Scored.t) : Prop :=
  Scored.score x < Scored.score y \/
  (Scored.score x = Scored.score y /\ Scored.support x < Scored.support y).

(** [tied a e]: entry [e] has counted votes and the score and support of [a]. *)
Definition tied (a e : Scored.t) : bool :=
  (0 <? Scored.support e) && (Scored.score e =? Scored.score a) &&
  (Scored.support e =? Scored.support a).

(** The statement of rank monotonicity over all the entries of a result. *)
Definition rank_monotone (out : list Scored.t) : Prop :=
  forall a b, In a out -> In b out ->
    (Scored.score a > Scored.score b -> Scored.rank a <= Scored.rank b) /\
    (Scored.score a = Scored.score b -> Scored.support a > Scored.support b ->
     Scored.rank a < Scored.rank b).

(** The statement of dense ranking over all the entries of a result: tied
    entries share their rank and the next key below them gets that rank plus
    one. *)
Definition dense_rank (out : list Scored.t) : Prop :=
  forall a b c, In a out -> In b out -> In c out ->
    a <> b ->
    Scored.score a = Scored.score b -> Scored.support a = Scored.support b ->
    key_lt c a ->
    (forall d, In d out -> ~ (key_lt c d /\ key_lt d a)) ->
    Scored.rank a = Scored.rank b /\ Scored.rank c = Scored.rank a + 1.

(** Has the user entered a challenge with a picture? *)
Definition has_entered_challenge (u : user) : bool :=
  existsb is_challenge_page (contributions u).



Definition sumZ (l : list Z) : Z := fold_right Z.add 0 l.

(** Totals of the columns [support] and [score] of a result. *)
Definition total_support (out : list Scored.t) : Z := sumZ (map Scored.support out).

Definition total_score (out : list Scored.t) : Z := sumZ (map Scored.score out).

(** The vote is for an entry of [file_df]. *)
Definition known_entry (file_df : list File.t) (r : vote_row) : bool :=
  existsb (fun f => String.eqb (Vote.num r) (File.num f)) file_df.

(** The votes of a frame for the entry of number [n]. *)
Definition votes_for (n : string) (vote_df : list Vote.t) : list Vote.t :=
  filter (fun v => String.eqb (Vote.num v) n) vote_df.


(** [n] is the number read off a section line among [seen]. *)
Definition from_section (section_num : pattern) (seen : list string)
    (n : string) : Prop :=
  exists l, In l seen /\ startswith "===" (strip l) = true /\
            n = substr section_num (strip l).

(** The lines that the loop writes, one for each line but the
    collapse-bottom lines. *)
Definition revised (lines : list string) : list string :=
  flat_map (fun l => match revise_line l with Some l' => [l'] | None => [] end)
           lines.

(** The line begins with none of the three markers of
    [revise_voting_page]. *)
Definition plain (line : string) : bool :=
  negb (startswith "<!-- '''Creator" line)
  && negb (startswith "{{Collapse bottom}}" line)
  && negb (startswith "'''Voting will end" line).

Fixpoint no_break (s : string) : bool :=
  match s with
  | EmptyString => true
  | String c s' => negb (is_linebreak c) && no_break s'
  end.

(** The text of the lines, each followed by a line feed. *)
Definition written (lines : list string) : string :=
  fold_right (fun l acc => l ++ nl ++ acc) "" lines.

(** * Scenarios *)

(** The steps of [process_challenge] that compute: parse the page, check the
    voters, check the votes, count. *)
Definition process_challenge (site : string -> user) (start_date : Z)
    (wiki_text : string) : result (list Scored.t * list vote_row) :=
  fv <- parse_voting_page wiki_text ;;
  voter_df <- validate_voters site start_date (snd fv) ;;
  let vote_df := validate_votes (snd fv) voter_df in
  Ok (count_votes vote_df (fst fv), vote_df).

(** A user of long standing, and a wiki where everybody is one. *)
Definition veteran : user := mk_user 500 0 true false [].
Definition veterans (name : string) : user := veteran.
Definition day_1000 : Z := 86400 * 1000.

(** Entry 1 by Alice with two votes of 3 by Bob and a vote of 1 by Alice
    herself; entry 2 without votes. *)
Definition scenario_page : string :=
"===1. Photo.jpg===
[[File:Photo.jpg|none|thumb|480px|A title]]
<!-- '''Creator:''' [[User:Alice|Alice]] -->
* {{3/3*}} -- [[User:Bob|Bob]]
* {{3/3*}} -- [[User:Bob|Bob]]
* {{1/3*}} -- [[User:Alice|Alice]]
===2. Other.jpg===
[[File:Other.jpg|none|thumb|480px|Other]]
<!-- '''Creator:''' [[User:Carol|Carol]] -->
".

Definition scenario_votes : list Vote.t :=
  [Vote.mk "1" 3 "Bob" "Alice" "* {{3/3*}} -- [[User:Bob|Bob]]";
   Vote.mk "1" 3 "Bob" "Alice" "* {{3/3*}} -- [[User:Bob|Bob]]";
   Vote.mk "1" 1 "Alice" "Alice" "* {{1/3*}} -- [[User:Alice|Alice]]"].

Definition scenario_voters : list Voter.t :=
  [Voter.mk "Bob" 0 0 500 (Some 0); Voter.mk "Alice" 0 0 500 (Some 0)].

(** Entries 1 and 2 tie at score 5 and support 2, entry 3 has one vote of 1
    and entry 4 has no vote. *)
Definition tie_votes : list Vote.t :=
  [Vote.mk "1" 3 "Bob" "Alice" "a"; Vote.mk "1" 2 "Dave" "Alice" "b";
   Vote.mk "2" 2 "Bob" "Carol" "c"; Vote.mk "2" 3 "Dave" "Carol" "d";
   Vote.mk "3" 1 "Bob" "Erin" "e"].

Definition tie_voters : list Voter.t :=
  [Voter.mk "Bob" 0 0 500 (Some 0); Voter.mk "Dave" 0 0 500 (Some 0)].

Definition tie_files : list File.t :=
  [File.mk "1" "One.jpg" "One" "Alice"; File.mk "2" "Two.jpg" "Two" "Carol";
   File.mk "3" "Three.jpg" "Three" "Erin"; File.mk "4" "Four.jpg" "Four" "Frank"].

Definition tie_result : list Scored.t :=
  count_votes (validate_votes tie_votes tie_voters) tie_files.

Definition tie_first : Scored.t :=
  Scored.mk (File.mk "1" "One.jpg" "One" "Alice") 5 2 (Some (17 # 3)%Q) 1.
Definition tie_second : Scored.t :=
  Scored.mk (File.mk "2" "Two.jpg" "Two" "Carol") 5 2 (Some (17 # 3)%Q) 1.
Definition tie_third : Scored.t :=
  Scored.mk (File.mk "3" "Three.jpg" "Three" "Erin") 1 1 (Some (4 # 3)%Q) 3.
Definition tie_fourth : Scored.t :=
  Scored.mk (File.mk "4" "Four.jpg" "Four" "Frank") 0 0 None 0.

(** An entry whose Creator line names no user, with an unsigned vote and a
    vote by Bob. *)
Definition anonymous_page : string :=
"===1. Photo.jpg===
[[File:Photo.jpg|none|thumb|480px|A title]]
<!-- '''Creator:''' unknown -->
* {{2/3*}} nice
* {{1/3*}} -- [[User:Bob|Bob]]
".

(** A voter registered five days before the vote, with ten edits and no
    picture in a challenge, and one with a picture. *)
Definition newcomer : user := mk_user 10 (86400 * 995) true false [].
Definition entrant : user :=
  mk_user 10 (86400 * 995) true false
          ["File:Tree.jpg"; "Commons:Photo challenge/2025 - August - Bark"].
Definition newcomers (name : string) : user :=
  if String.eqb name "Eve" then entrant else newcomer.

Definition newcomer_votes : list Vote.t :=
  [Vote.mk "1" 3 "Mallory" "Alice" "a"; Vote.mk "1" 2 "Eve" "Alice" "b";
   Vote.mk "2" 0 "Mallory" "Carol" "c"].

Definition newcomer_voters : list Voter.t :=
  [Voter.mk "Mallory" 4 0 10 (Some (86400 * 995));
   Voter.mk "Eve" 0 4 10 (Some (86400 * 995))].

Definition praise_row : vote_row :=
  mk_row (Vote.mk "2" 0 "Mallory" "Carol" "c") (Some 0).

Definition two_firsts : list Vote.t :=
  [Vote.mk "1" 3 "Bob" "Alice" "a"; Vote.mk "2" 3 "Bob" "Carol" "b";
   Vote.mk "3" 2 "Bob" "Erin" "c"].

Definition first_place_row : vote_row :=
  mk_row (Vote.mk "1" 3 "Bob" "Alice" "a") (Some 0).

Definition self_vote_row_example : vote_row :=
  mk_row (Vote.mk "1" 1 "Alice" "Alice" "* {{1/3*}} -- [[User:Alice|Alice]]")
         (Some 7).

Definition unsigned_votes : list Vote.t :=
  [Vote.mk "1" 2 "" "" "* {{2/3*}} nice"; Vote.mk "1" 1 "Bob" "" "* {{1/3*}} Bob"].

Definition unsigned_row_example : vote_row :=
  mk_row (Vote.mk "1" 2 "" "" "* {{2/3*}} nice") (Some 7).

(** The entries of [scenario_page], as the parser reads them. *)
Definition scenario_files : list File.t :=
  [File.mk "1" "Photo.jpg" "A title]]" "Alice";
   File.mk "2" "Other.jpg" "Other]]" "Carol"].

Definition scenario_first : Scored.t :=
  Scored.mk (File.mk "1" "Photo.jpg" "A title]]" "Alice") 7 3
            (Some (31 # 4)%Q) 1.

(** A wiki where everybody is a blocked user of long standing. *)
Definition blocked_veterans (name : string) : user :=
  mk_user 500 0 true true [].

(** An unsigned vote for an entry with a creator. *)
Definition stray_votes : list Vote.t :=
  [Vote.mk "1" 2 "" "Alice" "* {{2/3*}} nice"].

Definition stray_row : vote_row :=
  mk_row (Vote.mk "1" 2 "" "Alice" "* {{2/3*}} nice") (Some 6).

Definition bark : string := "2025 - August - Bark".

(** * Properties *)

(** ** Frames: masks, merges and duplicate marks *)

Section FrameFacts.
Context {A B : Type}.

Lemma combine_map_same (f : A -> B) (l : list A) :
  combine (map f l) l = map (fun x => (f x, x)) l.
Proof.
  induction l as [|x l IH]; simpl; [reflexivity | now rewrite IH].
Qed.

Lemma combine_map_map {C : Type} (f : A -> B) (g : A -> C) (l : list A) :
  combine (map f l) (map g l) = map (fun x => (f x, g x)) l.
Proof.
  induction l as [|x l IH]; simpl; [reflexivity | now rewrite IH].
Qed.

Lemma nth_error_combine (l : list A) (l' : list B) (i : nat) :
  nth_error (combine l l') i =
  match nth_error l i, nth_error l' i with
  | Some a, Some b => Some (a, b)
  | _, _ => None
  end.
Proof.
  revert l' i. induction l as [|a l IH]; intros [|b l'] [|i]; simpl;
    try reflexivity.
  - destruct (nth_error l i); reflexivity.
  - apply IH.
Qed.
End FrameFacts.

Lemma nth_error_indexed {A : Type} (l : list A) (i : nat) :
  nth_error (indexed l) i = option_map (fun x => (i, x)) (nth_error l i).
Proof.
  unfold indexed. rewrite nth_error_combine.
  destruct (nth_error l i) as [x|] eqn:Hx.
  - assert (Hi : (i < List.length l)%nat) by (apply nth_error_Some; congruence).
    rewrite (nth_error_nth' _ 0%nat) by (now rewrite length_seq).
    rewrite seq_nth by exact Hi. reflexivity.
  - destruct (nth_error (seq 0 (List.length l)) i); reflexivity.
Qed.

Lemma in_indexed {A : Type} (l : list A) (i : nat) (x : A) :
  In (i, x) (indexed l) <-> nth_error l i = Some x.
Proof.
  split.
  - intros H. apply In_nth_error in H as [k Hk].
    rewrite nth_error_indexed in Hk.
    destruct (nth_error l k) as [y|] eqn:Hy; simpl in Hk; [|discriminate].
    inversion Hk; subst. exact Hy.
  - intros H. apply (nth_error_In _ i). rewrite nth_error_indexed, H.
    reflexivity.
Qed.

Lemma map_fst_indexed {A : Type} (l : list A) :
  map fst (indexed l) = seq 0 (List.length l).
Proof.
  unfold indexed. generalize 0%nat.
  induction l as [|x l IH]; intros s; simpl; [reflexivity | now rewrite IH].
Qed.

Lemma map_snd_indexed {A : Type} (l : list A) :
  map snd (indexed l) = l.
Proof.
  unfold indexed. generalize 0%nat.
  induction l as [|x l IH]; intros s; simpl; [reflexivity | now rewrite IH].
Qed.

(** A mask computed row by row, possibly from the row's label, turns
    [loc_set_error] into a map over the labelled rows. *)
Lemma loc_set_error_indexed (g : nat * vote_row -> bool) (c : Z)
    (df : list vote_row) :
  loc_set_error (map g (indexed df)) c df =
  map (fun ir => if g ir then with_error (snd ir) (Some c) else snd ir)
      (indexed df).
Proof.
  unfold loc_set_error.
  rewrite <- (map_snd_indexed df) at 2.
  rewrite combine_map_map, map_map. reflexivity.
Qed.

Lemma loc_set_error_rowwise (f : vote_row -> bool) (c : Z) (df : list vote_row) :
  loc_set_error (map f df) c df =
  map (fun r => if f r then with_error r (Some c) else r) df.
Proof.
  unfold loc_set_error. rewrite combine_map_same, map_map. reflexivity.
Qed.

Lemma in_loc_set_error (mask : list bool) (c : Z) (df : list vote_row)
    (r' : vote_row) :
  In r' (loc_set_error mask c df) ->
  exists r, In r df /\ (r' = r \/ r' = with_error r (Some c)).
Proof.
  unfold loc_set_error. intros H. apply in_map_iff in H as [[b r] [Hr' Hin]].
  exists r. split; [eapply in_combine_r; exact Hin|].
  simpl in Hr'. destruct b; auto.
Qed.

(** ** The passes of validate_votes, row by row *)

Lemma in_amnesty (df : list vote_row) (r' : vote_row) :
  In r' (amnesty df) ->
  exists r, In r df /\
    r' = if (Vote.award r =? 0) && error_gt0 (error r)
         then with_error r (Some 0) else r.
Proof.
  unfold amnesty. rewrite loc_set_error_rowwise.
  intros H. apply in_map_iff in H as [r [Hr Hin]]. eauto.
Qed.

Lemma in_mark_duplicates (df : list vote_row) (r' : vote_row) :
  In r' (mark_duplicates df) ->
  exists r, In r df /\ (r' = r \/ r' = with_error r (Some DUPLICATE_VOTE)).
Proof. apply in_loc_set_error. Qed.

Lemma in_mark_unsigned (df : list vote_row) (r' : vote_row) :
  In r' (mark_unsigned df) ->
  exists r, In r df /\
    r' = if String.eqb (Vote.voter r) "" then with_error r (Some UNSIGNED) else r.
Proof.
  unfold mark_unsigned. rewrite loc_set_error_rowwise.
  intros H. apply in_map_iff in H as [r [Hr Hin]]. eauto.
Qed.

Lemma in_mark_self_votes (df : list vote_row) (r' : vote_row) :
  In r' (mark_self_votes df) ->
  exists r, In r df /\
    r' = if String.eqb (Vote.voter r) (Vote.creator r)
         then with_error r (Some SELF_VOTE) else r.
Proof.
  unfold mark_self_votes. rewrite loc_set_error_rowwise.
  intros H. apply in_map_iff in H as [r [Hr Hin]]. eauto.
Qed.

Lemma in_mark_multiple_placement (df : list vote_row) (r' : vote_row) :
  In r' (mark_multiple_placement df) ->
  exists r, In r df /\
    (r' = r \/ (mask1_row r = true /\ r' = with_error r (Some MULTI_PLACEMENT))).
Proof.
  unfold mark_multiple_placement. rewrite loc_set_error_indexed.
  intros H. apply in_map_iff in H as [[i r] [Hr Hin]]. simpl in Hr.
  exists r. split; [apply in_indexed in Hin; eapply nth_error_In; exact Hin|].
  destruct (mask1_row r) eqn:Hm; simpl in Hr.
  - destruct (series_get i (mask2 df)); auto.
  - auto.
Qed.

Lemma mask1_row_error (r : vote_row) :
  mask1_row r = true -> 0 < Vote.award r /\ error r = Some 0.
Proof.
  unfold mask1_row, error_eq0. intros H.
  apply andb_true_iff in H as [Ha He]. split; [lia|].
  destruct (error r) as [e|]; [|discriminate].
  apply Z.eqb_eq in He. now subst.
Qed.

(** A vote of the image's creator leaves the self-vote pass with code 7 and
    keeps it through the last pass. *)
Lemma self_vote_after_pass (df : list vote_row) (r : vote_row) :
  In r (mark_self_votes df) ->
  Vote.voter r = Vote.creator r ->
  error r = Some SELF_VOTE.
Proof.
  intros Hin Heq. apply in_mark_self_votes in Hin as [r0 [_ ->]].
  destruct (String.eqb (Vote.voter r0) (Vote.creator r0)) eqn:E.
  - reflexivity.
  - apply String.eqb_neq in E. contradiction.
Qed.

Lemma self_vote_final (df : list vote_row) (r : vote_row) :
  In r (mark_multiple_placement (mark_self_votes df)) ->
  Vote.voter r = Vote.creator r ->
  error r = Some SELF_VOTE.
Proof.
  intros Hin Heq.
  apply in_mark_multiple_placement in Hin as [r4 [Hin4 [-> | [Hm ->]]]].
  - now apply (self_vote_after_pass df).
  - apply mask1_row_error in Hm as [_ He].
    rewrite (self_vote_after_pass df r4 Hin4 Heq) in He. discriminate.
Qed.

(** C9. Self-vote invariant: a vote whose voter is the creator of the entry
    (both names non-empty) carries SELF_VOTE in the frame [validate_votes]
    returns. Whatever code the vote had before, it leaves the self-vote pass
    with SELF_VOTE, and the multiple-placement pass, which selects rows by
    [mask1], does not select it. *)
Theorem self_vote_invariant (vote_df : list Vote.t) (voter_df : list Voter.t)
    (r : vote_row) :
  In r (validate_votes vote_df voter_df) ->
  Vote.voter r <> "" ->
  Vote.voter r = Vote.creator r ->
  error r = Some SELF_VOTE /\
  (forall df r4, In r4 (mark_self_votes df) ->
     Vote.voter r4 = Vote.creator r4 ->
     error r4 = Some SELF_VOTE /\ mask1_row r4 = false).
Proof.
  intros Hin _ Heq. split.
  - unfold validate_votes in Hin. eapply self_vote_final; eassumption.
  - intros df r4 Hin4 Heq4.
    pose proof (self_vote_after_pass df r4 Hin4 Heq4) as He. split; [exact He|].
    unfold mask1_row. rewrite He. simpl. apply andb_false_r.
Qed.

(** C10. An unsigned vote on an entry whose creator is empty too: the
    unsigned pass gives it 6, the self-vote pass finds the two empty names
    equal and overwrites the 6 with 7, and 7 is the code in the frame
    [validate_votes] returns. *)
Theorem unsigned_vote_on_empty_creator (vote_df : list Vote.t)
    (voter_df : list Voter.t) (r : vote_row) :
  In r (validate_votes vote_df voter_df) ->
  Vote.voter r = "" ->
  Vote.creator r = "" ->
  error r = Some SELF_VOTE /\ error r <> Some UNSIGNED /\
  (forall df r3, In r3 (mark_unsigned df) -> Vote.voter r3 = "" ->
     error r3 = Some UNSIGNED).
Proof.
  intros Hin Hv Hc.
  assert (He : error r = Some SELF_VOTE).
  { unfold validate_votes in Hin. eapply self_vote_final; [eassumption|].
    now rewrite Hv, Hc. }
  split; [exact He|]. split; [rewrite He; discriminate|].
  intros df r3 Hin3 Hv3. apply in_mark_unsigned in Hin3 as [r2 [_ ->]].
  destruct (String.eqb (Vote.voter r2) "") eqn:E; [reflexivity|].
  apply String.eqb_neq in E. contradiction.
Qed.

Lemma amnesty_clears (df : list vote_row) (r : vote_row) :
  In r (amnesty df) -> Vote.award r = 0 -> error_gt0 (error r) = false.
Proof.
  intros Hin Ha. apply in_amnesty in Hin as [r0 [_ ->]].
  destruct ((Vote.award r0 =? 0) && error_gt0 (error r0)) eqn:E.
  - reflexivity.
  - apply andb_false_iff in E as [E|E]; [|exact E].
    destruct (Vote.award r0 =? 0) eqn:E0; [discriminate|].
    apply Z.eqb_neq in E0. contradiction.
Qed.

Lemma vote_level_only_some (c : Z) :
  c = DUPLICATE_VOTE \/ c = UNSIGNED \/ c = SELF_VOTE ->
  vote_level_only (Some c).
Proof. intros H x Hx _. inversion Hx; subst. exact H. Qed.

Lemma award0_before_last_pass (vote_df : list Vote.t) (voter_df : list Voter.t)
    (r : vote_row) :
  In r (mark_self_votes (mark_unsigned (mark_duplicates
          (amnesty (merge_voter_error vote_df voter_df))))) ->
  Vote.award r = 0 ->
  vote_level_only (error r).
Proof.
  intros Hin Ha.
  apply in_mark_self_votes in Hin as [r3 [Hin ->]].
  destruct (String.eqb (Vote.voter r3) (Vote.creator r3));
    [apply vote_level_only_some; auto|].
  apply in_mark_unsigned in Hin as [r2 [Hin ->]].
  destruct (String.eqb (Vote.voter r2) ""); simpl in *;
    [apply vote_level_only_some; auto|].
  apply in_mark_duplicates in Hin as [r1 [Hin [-> | ->]]];
    [|apply vote_level_only_some; auto].
  pose proof (amnesty_clears _ _ Hin Ha) as Hc.
  intros x Hx Hpos. rewrite Hx in Hc. simpl in Hc.
  apply Z.ltb_ge in Hc. lia.
Qed.

(** C6. Amnesty invariant: a vote with award 0 never ends with a code
    inherited from its voter (1 to 4) nor with MULTI_PLACEMENT (8); the only
    positive codes it can end with are DUPLICATE_VOTE, UNSIGNED and SELF_VOTE.
    Right after the amnesty step no award-0 vote has a positive code. *)
Theorem amnesty_invariant (vote_df : list Vote.t) (voter_df : list Voter.t)
    (r : vote_row) :
  In r (validate_votes vote_df voter_df) ->
  Vote.award r = 0 ->
  (error r <> Some IP_ADDRESS /\ error r <> Some UNREGISTERED /\
   error r <> Some NEW_ACCOUNT /\ error r <> Some LOW_EDITS /\
   error r <> Some MULTI_PLACEMENT) /\
  vote_level_only (error r) /\
  (forall df r1, In r1 (amnesty df) -> Vote.award r1 = 0 ->
     error_gt0 (error r1) = false).
Proof.
  intros Hin Ha.
  assert (Hv : vote_level_only (error r)).
  { unfold validate_votes in Hin.
    apply in_mark_multiple_placement in Hin as [r4 [Hin [-> | [Hm ->]]]].
    - now apply (award0_before_last_pass vote_df voter_df).
    - apply mask1_row_error in Hm as [Hpos _]. simpl in Ha. lia. }
  split; [|split; [exact Hv | intros df r1; apply amnesty_clears]].
  unfold vote_level_only, DUPLICATE_VOTE, UNSIGNED, SELF_VOTE in Hv.
  repeat split; intros He; destruct (Hv _ He) as [H|[H|H]];
    try discriminate H; reflexivity.
Qed.

(** ** The multiple-placement pass *)

Lemma series_get_in (s : list (nat * bool)) (i : nat) (b : bool) :
  NoDup (map fst s) -> In (i, b) s -> series_get i s = b.
Proof.
  induction s as [|[j c] s IH]; intros Hnd Hin; [destruct Hin|].
  simpl in *. inversion Hnd as [|? ? Hnotin Hnd']; subst.
  destruct Hin as [Heq | Hin].
  - inversion Heq; subst. now rewrite Nat.eqb_refl.
  - destruct (Nat.eqb i j) eqn:E.
    + apply Nat.eqb_eq in E. subst. exfalso. apply Hnotin.
      apply in_map_iff. exists (j, b). auto.
    + auto.
Qed.

Lemma NoDup_map_fst_filter {A : Type} (p : nat * A -> bool) (l : list (nat * A)) :
  NoDup (map fst l) -> NoDup (map fst (filter p l)).
Proof.
  induction l as [|x l IH]; intros Hnd; simpl; [constructor|].
  simpl in Hnd. inversion Hnd as [|? ? Hnotin Hnd']; subst.
  destruct (p x); simpl; auto. constructor; auto.
  intros Hin. apply Hnotin.
  apply in_map_iff in Hin as [y [Hy Hin]]. apply filter_In in Hin as [Hin _].
  apply in_map_iff. eauto.
Qed.

Lemma map_snd_filter {A : Type} (p : A -> bool) (l : list (nat * A)) :
  map snd (filter (fun x => p (snd x)) l) = filter p (map snd l).
Proof.
  induction l as [|x l IH]; simpl; [reflexivity|].
  destruct (p (snd x)); simpl; now rewrite IH.
Qed.

Lemma length_filter_map {A B : Type} (p : B -> bool) (f : A -> B) (l : list A) :
  List.length (filter p (map f l)) = List.length (filter (fun x => p (f x)) l).
Proof.
  induction l as [|x l IH]; simpl; [reflexivity|].
  destruct (p (f x)); simpl; now rewrite IH.
Qed.

Lemma mask2_spec (df : list vote_row) (i : nat) (r : vote_row) :
  nth_error df i = Some r ->
  mask1_row r = true ->
  series_get i (mask2 df) = Nat.ltb 1 (List.length (placement_group df r)).
Proof.
  intros Hr Hm. unfold mask2, duplicated_all.
  set (sub := filter (fun ir : nat * vote_row => mask1_row (snd ir)) (indexed df)).
  rewrite map_map, combine_map_map.
  assert (Hkeys : forall k,
    count_key award_voter_eqb k
      (map (fun ir : nat * vote_row => award_voter (snd ir)) sub) =
    List.length (filter (fun r' : vote_row => award_voter_eqb k (award_voter r'))
                        (filter mask1_row df))).
  { intros k. unfold count_key.
    rewrite <- (map_map snd award_voter), length_filter_map.
    unfold sub. rewrite map_snd_filter, map_snd_indexed. reflexivity. }
  apply series_get_in.
  - rewrite map_map. simpl. apply NoDup_map_fst_filter.
    rewrite map_fst_indexed. apply seq_NoDup.
  - apply in_map_iff. exists (i, r). simpl. split.
    + rewrite Hkeys. reflexivity.
    + apply filter_In. split; [now apply in_indexed | exact Hm].
Qed.

Lemma nth_error_mark_multiple_placement (df : list vote_row) (i : nat)
    (r : vote_row) :
  nth_error df i = Some r ->
  nth_error (mark_multiple_placement df) i =
  Some (if mask1_row r && Nat.ltb 1 (List.length (placement_group df r))
        then with_error r (Some MULTI_PLACEMENT) else r).
Proof.
  intros Hr. unfold mark_multiple_placement.
  rewrite loc_set_error_indexed, nth_error_map, nth_error_indexed, Hr. simpl.
  destruct (mask1_row r) eqn:Hm; simpl; [|reflexivity].
  now rewrite (mask2_spec df i r Hr Hm).
Qed.

Lemma nth_error_mark_multiple_placement_None (df : list vote_row) (i : nat) :
  nth_error df i = None -> nth_error (mark_multiple_placement df) i = None.
Proof.
  intros Hr. unfold mark_multiple_placement.
  now rewrite loc_set_error_indexed, nth_error_map, nth_error_indexed, Hr.
Qed.

(** C7. Multiple-placement pass: it is the last pass of [validate_votes]. It
    groups by (award, voter) only the votes that have award > 0 and still
    error 0 after the earlier passes; a vote of such a group of more than one
    vote gets MULTI_PLACEMENT, the first of the group like the later ones; a
    vote that is alone in its group, and a vote that already has another
    error (or award 0), leaves the pass as it entered it. *)
Theorem multiple_placement_pass (vote_df : list Vote.t) (voter_df : list Voter.t)
    (i : nat) (r : vote_row) :
  let df := before_multiple_placement vote_df voter_df in
  nth_error df i = Some r ->
  validate_votes vote_df voter_df = mark_multiple_placement df /\
  (mask1_row r = true -> (1 < List.length (placement_group df r))%nat ->
     nth_error (validate_votes vote_df voter_df) i =
     Some (with_error r (Some MULTI_PLACEMENT))) /\
  (mask1_row r = true -> (List.length (placement_group df r) <= 1)%nat ->
     nth_error (validate_votes vote_df voter_df) i = Some r) /\
  (mask1_row r = false ->
     nth_error (validate_votes vote_df voter_df) i = Some r).
Proof.
  intros df Hr.
  assert (Hv : validate_votes vote_df voter_df = mark_multiple_placement df)
    by reflexivity.
  rewrite Hv, (nth_error_mark_multiple_placement df i r Hr).
  split; [reflexivity|]. repeat split.
  - intros -> Hlen. apply Nat.ltb_lt in Hlen. now rewrite Hlen.
  - intros -> Hlen. apply Nat.ltb_ge in Hlen. now rewrite Hlen.
  - intros ->. reflexivity.
Qed.

(** ** The cascade, vote by vote *)

Lemma row_vote_amnesty_row (r : vote_row) : row_vote (amnesty_row r) = row_vote r.
Proof. unfold amnesty_row. now destruct (_ && _). Qed.

Lemma row_vote_unsigned_row (r : vote_row) : row_vote (unsigned_row r) = row_vote r.
Proof. unfold unsigned_row. now destruct (String.eqb _ _). Qed.

Lemma row_vote_self_vote_row (r : vote_row) : row_vote (self_vote_row r) = row_vote r.
Proof. unfold self_vote_row. now destruct (String.eqb _ _). Qed.

Lemma row_vote_row_after_duplicates vote_df voter_df j v :
  row_vote (row_after_duplicates vote_df voter_df j v) = v.
Proof.
  unfold row_after_duplicates.
  destruct (earlier_same_key vote_df j v); simpl;
    now rewrite row_vote_amnesty_row.
Qed.

Lemma row_vote_row_before_last vote_df voter_df j v :
  row_vote (row_before_last vote_df voter_df j v) = v.
Proof.
  unfold row_before_last.
  now rewrite row_vote_self_vote_row, row_vote_unsigned_row,
    row_vote_row_after_duplicates.
Qed.

Section UniqueKeys.
Context {A B C : Type} (key_l : A -> string) (key_r : B -> string)
        (join : A -> option B -> C).

Lemma filter_key_absent (k : string) (l : list B) :
  ~ In k (map key_r l) -> filter (fun b => String.eqb (key_r b) k) l = [].
Proof.
  induction l as [|b l IH]; intros Hn; simpl; [reflexivity|].
  destruct (String.eqb (key_r b) k) eqn:E.
  - apply String.eqb_eq in E. exfalso. apply Hn. now left.
  - apply IH. intros H. apply Hn. now right.
Qed.

Lemma filter_key_NoDup (k : string) (l : list B) :
  NoDup (map key_r l) ->
  filter (fun b => String.eqb (key_r b) k) l =
  match find (fun b => String.eqb (key_r b) k) l with
  | Some b => [b]
  | None => []
  end.
Proof.
  induction l as [|b l IH]; intros Hnd; simpl; [reflexivity|].
  simpl in Hnd. inversion Hnd as [|? ? Hnotin Hnd']; subst.
  destruct (String.eqb (key_r b) k) eqn:E.
  - apply String.eqb_eq in E. subst k.
    now rewrite filter_key_absent.
  - now apply IH.
Qed.

(** A left merge with a right frame of distinct keys keeps one row per left
    row. *)
Lemma merge_left_NoDup (ldf : list A) (rdf : list B) :
  NoDup (map key_r rdf) ->
  merge_left key_l key_r join ldf rdf =
  map (fun a => join a (find (fun b => String.eqb (key_r b) (key_l a)) rdf)) ldf.
Proof.
  intros Hnd. unfold merge_left.
  induction ldf as [|a ldf IH]; [reflexivity|].
  cbn [flat_map]. rewrite IH, (filter_key_NoDup (key_l a) rdf Hnd).
  cbn [map]. destruct (find _ rdf); reflexivity.
Qed.
End UniqueKeys.

Lemma nth_error_duplicated_from {K : Type} (eqb : K -> K -> bool)
    (keys seen : list K) (j : nat) :
  nth_error (duplicated_from eqb seen keys) j =
  option_map (fun k => existsb (eqb k) seen || existsb (eqb k) (firstn j keys))
             (nth_error keys j).
Proof.
  revert seen j. induction keys as [|k0 ks IH]; intros seen [|j]; simpl;
    try reflexivity.
  - now rewrite orb_false_r.
  - rewrite IH. destruct (nth_error ks j) as [k|]; simpl; [|reflexivity].
    f_equal. destruct (eqb k k0), (existsb (eqb k) seen); reflexivity.
Qed.

Lemma nth_error_duplicated {K : Type} (eqb : K -> K -> bool) (keys : list K)
    (j : nat) :
  nth_error (duplicated eqb keys) j =
  option_map (fun k => existsb (eqb k) (firstn j keys)) (nth_error keys j).
Proof. unfold duplicated. now rewrite nth_error_duplicated_from. Qed.

Lemma amnesty_map (df : list vote_row) : amnesty df = map amnesty_row df.
Proof. unfold amnesty. now rewrite loc_set_error_rowwise. Qed.

Lemma mark_unsigned_map (df : list vote_row) :
  mark_unsigned df = map unsigned_row df.
Proof. unfold mark_unsigned. now rewrite loc_set_error_rowwise. Qed.

Lemma mark_self_votes_map (df : list vote_row) :
  mark_self_votes df = map self_vote_row df.
Proof. unfold mark_self_votes. now rewrite loc_set_error_rowwise. Qed.

Lemma nth_error_mark_duplicates (df : list vote_row) (j : nat) :
  nth_error (mark_duplicates df) j =
  option_map (fun r : vote_row =>
      if existsb (num_voter_eqb (num_voter r)) (firstn j (map num_voter df))
      then with_error r (Some DUPLICATE_VOTE) else r)
    (nth_error df j).
Proof.
  unfold mark_duplicates, loc_set_error.
  rewrite nth_error_map, nth_error_combine, nth_error_duplicated, nth_error_map.
  now destruct (nth_error df j).
Qed.

Lemma nth_error_after_duplicates (vote_df : list Vote.t)
    (voter_df : list Voter.t) (j : nat) :
  NoDup (map Voter.voter voter_df) ->
  nth_error (mark_duplicates (amnesty (merge_voter_error vote_df voter_df))) j =
  option_map (row_after_duplicates vote_df voter_df j) (nth_error vote_df j).
Proof.
  intros Hnd. unfold merge_voter_error.
  rewrite (merge_left_NoDup _ _ _ _ _ Hnd), amnesty_map.
  rewrite nth_error_mark_duplicates, !nth_error_map.
  destruct (nth_error vote_df j) as [v|]; simpl; [|reflexivity].
  unfold row_after_duplicates, earlier_same_key, merged_row.
  rewrite !map_map.
  replace (map (fun x : Vote.t => num_voter (amnesty_row
             {| row_vote := x;
                error := option_map Voter.error
                  (find (fun b => String.eqb (Voter.voter b) (Vote.voter x))
                        voter_df) |})) vote_df)
    with (map vote_key vote_df).
  2:{ apply map_ext. intros x. unfold num_voter.
      now rewrite row_vote_amnesty_row. }
  unfold num_voter at 1. rewrite row_vote_amnesty_row. reflexivity.
Qed.

Lemma nth_error_before_multiple_placement (vote_df : list Vote.t)
    (voter_df : list Voter.t) (j : nat) :
  NoDup (map Voter.voter voter_df) ->
  nth_error (before_multiple_placement vote_df voter_df) j =
  option_map (row_before_last vote_df voter_df j) (nth_error vote_df j).
Proof.
  intros Hnd. unfold before_multiple_placement.
  rewrite mark_self_votes_map, mark_unsigned_map, !nth_error_map.
  rewrite (nth_error_after_duplicates vote_df voter_df j Hnd).
  now destruct (nth_error vote_df j).
Qed.

(** ** Duplicate votes *)

Lemma num_voter_eqb_eq (a b : string * string) :
  num_voter_eqb a b = true <-> a = b.
Proof.
  destruct a as [a1 a2], b as [b1 b2]. unfold num_voter_eqb. simpl.
  rewrite andb_true_iff, !String.eqb_eq. split.
  - intros [-> ->]. reflexivity.
  - intros H. inversion H. auto.
Qed.

Lemma earlier_same_key_true (vote_df : list Vote.t) (i j : nat) (vi vj : Vote.t) :
  (i < j)%nat -> nth_error vote_df i = Some vi ->
  vote_key vi = vote_key vj ->
  earlier_same_key vote_df j vj = true.
Proof.
  intros Hlt Hi Hk. unfold earlier_same_key. apply existsb_exists.
  exists (vote_key vi). split.
  - apply (nth_error_In _ i). rewrite nth_error_firstn.
    apply Nat.ltb_lt in Hlt. rewrite Hlt, nth_error_map, Hi. reflexivity.
  - apply num_voter_eqb_eq. congruence.
Qed.

Lemma earlier_same_key_false (vote_df : list Vote.t) (i : nat) (vi : Vote.t) :
  (forall k vk, (k < i)%nat -> nth_error vote_df k = Some vk ->
     vote_key vk <> vote_key vi) ->
  earlier_same_key vote_df i vi = false.
Proof.
  intros Hfirst. unfold earlier_same_key.
  destruct (existsb _ _) eqn:E; [|reflexivity]. exfalso.
  apply existsb_exists in E as [x [Hin Hx]]. apply num_voter_eqb_eq in Hx.
  apply In_nth_error in Hin as [k Hk]. rewrite nth_error_firstn in Hk.
  destruct (Nat.ltb k i) eqn:Hlt; [|discriminate]. apply Nat.ltb_lt in Hlt.
  rewrite nth_error_map in Hk.
  destruct (nth_error vote_df k) as [vk|] eqn:Hvk; [|discriminate].
  simpl in Hk. inversion Hk; subst x.
  apply (Hfirst k vk Hlt Hvk). congruence.
Qed.

Lemma find_NoDup_key {B : Type} (key : B -> string) (l : list B) (w : B) :
  NoDup (map key l) -> In w l ->
  find (fun b => String.eqb (key b) (key w)) l = Some w.
Proof.
  induction l as [|b l IH]; intros Hnd Hin; [destruct Hin|].
  simpl in *. inversion Hnd as [|? ? Hnotin Hnd']; subst.
  destruct Hin as [-> | Hin].
  - now rewrite String.eqb_refl.
  - destruct (String.eqb (key b) (key w)) eqn:E; [|auto].
    apply String.eqb_eq in E. exfalso. apply Hnotin. rewrite E.
    now apply in_map.
Qed.

Lemma filter_none {A : Type} (p : A -> bool) (l : list A) :
  (forall x, In x l -> p x = false) -> filter p l = [].
Proof.
  induction l as [|x l IH]; intros H; simpl; [reflexivity|].
  rewrite (H x) by now left. apply IH. intros y Hy. apply H. now right.
Qed.

Lemma length_filter_at_most_one {A : Type} (p : A -> bool) (l : list A) (i : nat) :
  (forall k x, nth_error l k = Some x -> p x = true -> k = i) ->
  (List.length (filter p l) <= 1)%nat.
Proof.
  revert i. induction l as [|y l IH]; intros i H; simpl; [lia|].
  destruct (p y) eqn:Hy.
  - assert (Hi : 0%nat = i) by (apply (H 0%nat y); auto). subst i.
    rewrite filter_none; [simpl; lia|].
    intros x Hx. destruct (p x) eqn:Hpx; [|reflexivity].
    apply In_nth_error in Hx as [k Hk].
    specialize (H (S k) x Hk Hpx). discriminate.
  - apply (IH (pred i)). intros k x Hk Hpx.
    specialize (H (S k) x Hk Hpx). lia.
Qed.

Lemma filter_filter_andb {A : Type} (p q : A -> bool) (l : list A) :
  filter p (filter q l) = filter (fun x => q x && p x) l.
Proof.
  induction l as [|x l IH]; simpl; [reflexivity|].
  destruct (q x); simpl; [destruct (p x)|]; now rewrite IH.
Qed.

(** A vote marked as a duplicate ends with 5, 6 or 7. *)
Lemma later_duplicate_error (r1 : vote_row) :
  let r := self_vote_row (unsigned_row (with_error r1 (Some DUPLICATE_VOTE))) in
  (error r = Some DUPLICATE_VOTE \/ error r = Some UNSIGNED \/
   error r = Some SELF_VOTE) /\
  (Vote.voter r1 <> "" -> Vote.voter r1 <> Vote.creator r1 ->
   error r = Some DUPLICATE_VOTE).
Proof.
  unfold self_vote_row, unsigned_row. simpl.
  destruct (String.eqb (Vote.voter r1) "") eqn:E1; simpl;
    destruct (String.eqb (Vote.voter r1) (Vote.creator r1)) eqn:E2; simpl;
    (split; [auto|]); intros H1 H2;
    try (apply String.eqb_eq in E1; contradiction);
    try (apply String.eqb_eq in E2; contradiction); reflexivity.
Qed.

Lemma mask1_row_false_of_error (r : vote_row) :
  error r <> Some 0 -> mask1_row r = false.
Proof.
  intros H. destruct (mask1_row r) eqn:E; [|reflexivity].
  apply mask1_row_error in E as [_ E]. contradiction.
Qed.

Lemma award_voter_eqb_eq (a b : Z * string) :
  award_voter_eqb a b = true <-> a = b.
Proof.
  destruct a as [a1 a2], b as [b1 b2]. unfold award_voter_eqb. simpl.
  rewrite andb_true_iff, Z.eqb_eq, String.eqb_eq. split.
  - intros [-> ->]. reflexivity.
  - intros H. inversion H. auto.
Qed.

Section DuplicatePair.
Variables (vote_df : list Vote.t) (voter_df : list Voter.t).
Hypothesis voters_distinct : NoDup (map Voter.voter voter_df).

Lemma later_duplicate_before_last (i j : nat) (vi vj : Vote.t) :
  (i < j)%nat -> nth_error vote_df i = Some vi ->
  vote_key vi = vote_key vj ->
  let r := row_before_last vote_df voter_df j vj in
  (error r = Some DUPLICATE_VOTE \/ error r = Some UNSIGNED \/
   error r = Some SELF_VOTE) /\
  (Vote.voter vj <> "" -> Vote.voter vj <> Vote.creator vj ->
   error r = Some DUPLICATE_VOTE).
Proof.
  intros Hlt Hi Hk. unfold row_before_last, row_after_duplicates.
  rewrite (earlier_same_key_true vote_df i j vi vj Hlt Hi Hk).
  pose proof (later_duplicate_error (amnesty_row (merged_row voter_df vj)))
    as H.
  rewrite row_vote_amnesty_row in H. exact H.
Qed.

Lemma later_duplicate_final (i j : nat) (vi vj : Vote.t) :
  (i < j)%nat -> nth_error vote_df i = Some vi ->
  nth_error vote_df j = Some vj ->
  vote_key vi = vote_key vj ->
  nth_error (validate_votes vote_df voter_df) j =
  Some (row_before_last vote_df voter_df j vj).
Proof.
  intros Hlt Hi Hj Hk.
  change (validate_votes vote_df voter_df)
    with (mark_multiple_placement (before_multiple_placement vote_df voter_df)).
  rewrite (nth_error_mark_multiple_placement _ j
             (row_before_last vote_df voter_df j vj)).
  2:{ rewrite nth_error_before_multiple_placement, Hj by assumption.
      reflexivity. }
  rewrite mask1_row_false_of_error; [reflexivity|].
  destruct (later_duplicate_before_last i j vi vj Hlt Hi Hk)
    as [[H|[H|H]] _]; rewrite H; discriminate.
Qed.

Lemma first_vote_before_last (i : nat) (vi : Vote.t) (w : Voter.t) :
  (forall k vk, (k < i)%nat -> nth_error vote_df k = Some vk ->
     vote_key vk <> vote_key vi) ->
  In w voter_df -> Voter.voter w = Vote.voter vi ->
  (Voter.error w = 0 \/ (Vote.award vi = 0 /\ 0 <= Voter.error w)) ->
  Vote.voter vi <> "" -> Vote.voter vi <> Vote.creator vi ->
  row_before_last vote_df voter_df i vi = mk_row vi (Some 0).
Proof.
  intros Hfirst Hw Hwv Herr Hsigned Hself.
  unfold row_before_last, row_after_duplicates.
  rewrite (earlier_same_key_false vote_df i vi Hfirst).
  unfold merged_row. rewrite <- Hwv.
  rewrite (find_NoDup_key Voter.voter voter_df w voters_distinct Hw).
  simpl.
  assert (Ha : amnesty_row {| row_vote := vi; error := Some (Voter.error w) |}
               = mk_row vi (Some 0)).
  { unfold amnesty_row, with_error. simpl.
    destruct Herr as [-> | [Ha Hge]].
    - simpl. now rewrite andb_false_r.
    - rewrite Ha. simpl. destruct (0 <? Voter.error w) eqn:E; [reflexivity|].
      apply Z.ltb_ge in E. replace (Voter.error w) with 0 by lia.
      reflexivity. }
  apply String.eqb_neq in Hsigned, Hself.
  rewrite Ha. unfold unsigned_row. simpl. rewrite Hsigned.
  unfold self_vote_row. simpl. now rewrite Hself.
Qed.

Lemma first_vote_final (i : nat) (vi : Vote.t) (w : Voter.t) :
  nth_error vote_df i = Some vi ->
  (forall k vk, (k < i)%nat -> nth_error vote_df k = Some vk ->
     vote_key vk <> vote_key vi) ->
  In w voter_df -> Voter.voter w = Vote.voter vi ->
  (Voter.error w = 0 \/ (Vote.award vi = 0 /\ 0 <= Voter.error w)) ->
  Vote.voter vi <> "" -> Vote.voter vi <> Vote.creator vi ->
  (forall k vk, nth_error vote_df k = Some vk ->
     Vote.voter vk = Vote.voter vi -> Vote.award vk = Vote.award vi ->
     Vote.num vk = Vote.num vi) ->
  nth_error (validate_votes vote_df voter_df) i = Some (mk_row vi (Some 0)).
Proof.
  intros Hi Hfirst Hw Hwv Herr Hsigned Hself Hplace.
  pose proof (first_vote_before_last i vi w Hfirst Hw Hwv Herr Hsigned Hself)
    as Hrow.
  change (validate_votes vote_df voter_df)
    with (mark_multiple_placement (before_multiple_placement vote_df voter_df)).
  rewrite (nth_error_mark_multiple_placement _ i (mk_row vi (Some 0))).
  2:{ rewrite nth_error_before_multiple_placement, Hi by assumption.
      simpl. now rewrite Hrow. }
  replace (Nat.ltb 1 _) with false; [now rewrite andb_false_r|].
  symmetry. apply Nat.ltb_ge. unfold placement_group.
  rewrite filter_filter_andb. apply (length_filter_at_most_one _ _ i).
  intros k x Hk Hx. apply andb_true_iff in Hx as [Hm Hx].
  apply award_voter_eqb_eq in Hx. unfold award_voter in Hx. simpl in Hx.
  rewrite nth_error_before_multiple_placement in Hk by assumption.
  destruct (nth_error vote_df k) as [vk|] eqn:Hvk; [|discriminate].
  simpl in Hk. inversion Hk; subst x. clear Hk.
  rewrite row_vote_row_before_last in Hx. inversion Hx as [[Haw Hvo]].
  assert (Hkey : vote_key vi = vote_key vk).
  { unfold vote_key. f_equal; [|exact Hvo].
    symmetry. apply (Hplace k vk Hvk); congruence. }
  destruct (Nat.lt_trichotomy k i) as [Hlt | [Heq | Hgt]]; [|exact Heq|].
  - exfalso. apply (Hfirst k vk Hlt Hvk). congruence.
  - exfalso.
    destruct (later_duplicate_before_last i k vi vk Hgt Hi Hkey)
      as [Hcodes _].
    apply mask1_row_error in Hm as [_ Hm].
    destruct Hcodes as [H|[H|H]]; rewrite H in Hm; discriminate.
Qed.
Lemma nth_error_validate_votes (k : nat) (x : vote_row) :
  nth_error (validate_votes vote_df voter_df) k = Some x ->
  nth_error vote_df k = Some (row_vote x).
Proof.
  change (validate_votes vote_df voter_df)
    with (mark_multiple_placement (before_multiple_placement vote_df voter_df)).
  intros Hx.
  pose proof (nth_error_before_multiple_placement vote_df voter_df k
                voters_distinct) as Hb.
  destruct (nth_error vote_df k) as [vk|] eqn:Hvk; simpl in Hb.
  - rewrite (nth_error_mark_multiple_placement _ k _ Hb) in Hx.
    inversion Hx. f_equal.
    destruct (_ && _); simpl; now rewrite row_vote_row_before_last.
  - rewrite (nth_error_mark_multiple_placement_None _ k Hb) in Hx.
    discriminate.
Qed.

Lemma exactly_one_accepted (i : nat) (vi : Vote.t) (w : Voter.t) :
  nth_error vote_df i = Some vi ->
  (forall k vk, (k < i)%nat -> nth_error vote_df k = Some vk ->
     vote_key vk <> vote_key vi) ->
  In w voter_df -> Voter.voter w = Vote.voter vi ->
  (Voter.error w = 0 \/ (Vote.award vi = 0 /\ 0 <= Voter.error w)) ->
  Vote.voter vi <> "" -> Vote.voter vi <> Vote.creator vi ->
  (forall k vk, nth_error vote_df k = Some vk ->
     Vote.voter vk = Vote.voter vi -> Vote.award vk = Vote.award vi ->
     Vote.num vk = Vote.num vi) ->
  List.length (filter (accepted_for (vote_key vi))
                      (validate_votes vote_df voter_df)) = 1%nat.
Proof.
  intros Hi Hfirst Hw Hwv Herr Hsigned Hself Hplace.
  pose proof (first_vote_final i vi w Hi Hfirst Hw Hwv Herr Hsigned Hself Hplace)
    as Hrow.
  assert (Hle : (List.length (filter (accepted_for (vote_key vi))
                   (validate_votes vote_df voter_df)) <= 1)%nat).
  { apply (length_filter_at_most_one _ _ i). intros k x Hk Hp.
    unfold accepted_for in Hp. apply andb_true_iff in Hp as [Hkey He].
    apply num_voter_eqb_eq in Hkey.
    pose proof (nth_error_validate_votes k x Hk) as Hvk.
    assert (Hkk : vote_key vi = vote_key (row_vote x))
      by (symmetry; exact Hkey).
    destruct (Nat.lt_trichotomy k i) as [Hlt | [Heq | Hgt]]; [|exact Heq|].
    - exfalso. apply (Hfirst k _ Hlt Hvk). congruence.
    - exfalso.
      rewrite (later_duplicate_final i k vi _ Hgt Hi Hvk Hkk) in Hk.
      inversion Hk as [Hx].
      destruct (later_duplicate_before_last i k vi (row_vote x) Hgt Hi Hkk)
        as [Hcodes _].
      rewrite Hx in Hcodes.
      destruct Hcodes as [H|[H|H]]; rewrite H in He; discriminate. }
  assert (Hin : In (mk_row vi (Some 0))
                   (filter (accepted_for (vote_key vi))
                           (validate_votes vote_df voter_df))).
  { apply filter_In. split; [eapply nth_error_In; exact Hrow|].
    unfold accepted_for. apply andb_true_iff. split; [|reflexivity].
    now apply num_voter_eqb_eq. }
  destruct (filter _ _) as [|y [|z l]]; [destruct Hin | reflexivity|].
  simpl in Hle. lia.
Qed.
End DuplicatePair.

(** C8. Duplicate invariant: when two votes have the same entry and voter,
    the later one gets DUPLICATE_VOTE in the duplicate pass and ends with a
    nonzero code: DUPLICATE_VOTE, unless it is unsigned or a self-vote, whose
    codes 6 and 7 are written over it. The first vote of the pair is not
    marked: absent other disqualifications (its voter is eligible or the vote
    is a praise, it is signed, it is not a self-vote, and the voter did not
    give the same place to another entry) it ends with error 0, and it is
    the one vote of that voter for that entry with error 0. *)
Theorem duplicate_invariant (vote_df : list Vote.t) (voter_df : list Voter.t)
    (i j : nat) (vi vj : Vote.t) :
  NoDup (map Voter.voter voter_df) ->
  (i < j)%nat ->
  nth_error vote_df i = Some vi ->
  nth_error vote_df j = Some vj ->
  Vote.num vi = Vote.num vj ->
  Vote.voter vi = Vote.voter vj ->
  (exists r2,
     nth_error (mark_duplicates (amnesty (merge_voter_error vote_df voter_df))) j
       = Some r2 /\
     row_vote r2 = vj /\ error r2 = Some DUPLICATE_VOTE) /\
  (exists r,
     nth_error (validate_votes vote_df voter_df) j = Some r /\
     row_vote r = vj /\
     (error r = Some DUPLICATE_VOTE \/ error r = Some UNSIGNED \/
      error r = Some SELF_VOTE) /\
     (Vote.voter vj <> "" -> Vote.voter vj <> Vote.creator vj ->
      error r = Some DUPLICATE_VOTE)) /\
  ((forall k vk, (k < i)%nat -> nth_error vote_df k = Some vk ->
      vote_key vk <> vote_key vi) ->
   forall w, In w voter_df -> Voter.voter w = Vote.voter vi ->
   (Voter.error w = 0 \/ (Vote.award vi = 0 /\ 0 <= Voter.error w)) ->
   Vote.voter vi <> "" -> Vote.voter vi <> Vote.creator vi ->
   (forall k vk, nth_error vote_df k = Some vk ->
      Vote.voter vk = Vote.voter vi -> Vote.award vk = Vote.award vi ->
      Vote.num vk = Vote.num vi) ->
   (exists r,
      nth_error (validate_votes vote_df voter_df) i = Some r /\
      row_vote r = vi /\ error r = Some 0) /\
   List.length (filter (accepted_for (vote_key vi))
                       (validate_votes vote_df voter_df)) = 1%nat).
Proof.
  intros Hnd Hlt Hi Hj Hnum Hvoter.
  assert (Hk : vote_key vi = vote_key vj) by (unfold vote_key; congruence).
  split; [|split].
  - exists (row_after_duplicates vote_df voter_df j vj).
    rewrite nth_error_after_duplicates, Hj by assumption.
    split; [reflexivity|]. split; [apply row_vote_row_after_duplicates|].
    unfold row_after_duplicates.
    now rewrite (earlier_same_key_true vote_df i j vi vj Hlt Hi Hk).
  - exists (row_before_last vote_df voter_df j vj).
    split; [now apply (later_duplicate_final _ _ Hnd i j vi vj)|].
    split; [apply row_vote_row_before_last|].
    now apply (later_duplicate_before_last vote_df voter_df i j vi vj).
  - intros Hfirst w Hw Hwv Herr Hsigned Hself Hplace. split.
    + exists (mk_row vi (Some 0)).
      split; [|split; reflexivity].
      now apply (first_vote_final _ _ Hnd i vi w).
    + now apply (exactly_one_accepted _ _ Hnd i vi w).
Qed.

(** ** count_votes: the merged frame *)

Lemma in_unique_from (seen l : list string) (x : string) :
  In x (unique_from seen l) <-> In x l /\ ~ In x seen.
Proof.
  revert seen. induction l as [|y l IH]; intros seen; simpl.
  - tauto.
  - destruct (existsb (String.eqb y) seen) eqn:E.
    + apply existsb_exists in E as [z [Hz Hyz]]. apply String.eqb_eq in Hyz.
      subst z. rewrite IH. split; [tauto|]. intros [[-> | H] Hn]; tauto.
    + assert (Hy : ~ In y seen).
      { intros Hy. assert (existsb (String.eqb y) seen = true).
        { apply existsb_exists. exists y. split; [exact Hy|].
          apply String.eqb_refl. }
        congruence. }
      simpl. rewrite IH. simpl. split.
      * intros [<- | [H Hn]]; [tauto|]. split; [tauto|]. intros Hs. apply Hn. tauto.
      * intros [[-> | H] Hn]; [tauto|].
        destruct (string_dec y x) as [-> | Hne]; [tauto|].
        right. split; [exact H|]. intros [Heq | Hs]; [congruence | tauto].
Qed.

Lemma NoDup_unique_from (seen l : list string) : NoDup (unique_from seen l).
Proof.
  revert seen. induction l as [|y l IH]; intros seen; simpl; [constructor|].
  destruct (existsb (String.eqb y) seen); [apply IH|].
  constructor; [|apply IH].
  rewrite in_unique_from. intros [_ Hn]. apply Hn. now left.
Qed.

Lemma in_unique (l : list string) (x : string) : In x (unique l) <-> In x l.
Proof. unfold unique. rewrite in_unique_from. simpl. tauto. Qed.

Lemma find_group (g : string -> Z) (keys : list string) (k : string) :
  NoDup keys ->
  option_map snd
    (find (fun s : string * Z => String.eqb (fst s) k)
          (map (fun n => (n, g n)) keys)) =
  if existsb (fun n => String.eqb n k) keys then Some (g k) else None.
Proof.
  intros _. induction keys as [|n keys IH]; simpl; [reflexivity|].
  destruct (String.eqb n k) eqn:E; simpl.
  - apply String.eqb_eq in E. now subst.
  - exact IH.
Qed.

Lemma existsb_unique_nums (votes : list vote_row) (k : string) :
  existsb (fun n => String.eqb n k)
          (unique (map (fun r : vote_row => Vote.num r) votes)) =
  has_votes k votes.
Proof.
  unfold has_votes.
  destruct (existsb (fun r : vote_row => String.eqb (Vote.num r) k) votes) eqn:E.
  - apply existsb_exists in E as [r [Hr Hk]]. apply existsb_exists.
    exists (Vote.num r). split; [|exact Hk].
    apply in_unique. now apply (in_map (fun r : vote_row => Vote.num r)).
  - destruct (existsb _ (unique _)) eqn:E'; [|reflexivity].
    apply existsb_exists in E' as [n [Hn Hk]].
    apply (proj1 (in_unique _ _)) in Hn.
    apply in_map_iff in Hn as [r [<- Hr]].
    assert (existsb (fun r : vote_row => String.eqb (Vote.num r) k) votes = true)
      by (apply existsb_exists; eauto).
    congruence.
Qed.

Lemma map_fst_keyed {V : Type} (g : string -> V) (keys : list string) :
  map fst (map (fun n => (n, g n)) keys) = keys.
Proof. rewrite map_map. simpl. apply map_id. Qed.

(** The two left merges of [count_votes] give every entry its row once. *)
Lemma count_votes_merges (vote_df : list vote_row) (file_df : list File.t) :
  let votes := counted vote_df in
  merge_left (fun fs : File.t * option Z => File.num (fst fs)) fst
    (fun (fs : File.t * option Z) (p : option (string * Z)) =>
       mk_merged (fst fs) (snd fs) (option_map snd p))
    (merge_left File.num fst
       (fun (f : File.t) (s : option (string * Z)) => (f, option_map snd s))
       file_df (groupby_sum votes))
    (groupby_count votes) =
  merged_files vote_df file_df.
Proof.
  intros votes. unfold groupby_sum, groupby_count.
  rewrite !merge_left_NoDup
    by (rewrite map_fst_keyed; apply NoDup_unique_from).
  unfold merged_files. rewrite map_map. apply map_ext. intros f. simpl.
  rewrite !find_group by apply NoDup_unique_from.
  rewrite existsb_unique_nums. fold votes. unfold score_col, support_col.
  now destruct (has_votes (File.num f) votes).
Qed.

(** ** count_votes: the tie-break key *)

Lemma Qlt_bool_key_of (s p s' p' m : Z) :
  0 < m ->
  Qlt_bool (key_of s p m) (key_of s' p' m) = (s * m + p <? s' * m + p').
Proof.
  intros Hm. destruct m as [|mp|mp]; try lia.
  unfold Qlt_bool, Qle_bool, key_of, Qplus, Qdiv, Qmult, Qinv, inject_Z. simpl.
  rewrite <- Z.ltb_antisym.
  destruct (Z.ltb_spec ((s * Z.pos mp + p * 1 * 1) * Z.pos mp)
                       ((s' * Z.pos mp + p' * 1 * 1) * Z.pos mp)),
           (Z.ltb_spec (s * Z.pos mp + p) (s' * Z.pos mp + p'));
    try reflexivity; nia.
Qed.

(** The support term is a fraction below one, so it decides the order only
    between entries of equal score. *)
Lemma Qlt_bool_key_lex (s p s' p' m : Z) :
  0 <= p < m -> 0 <= p' < m ->
  Qlt_bool (key_of s p m) (key_of s' p' m) = key_ltb s p s' p'.
Proof.
  intros Hp Hp'. rewrite Qlt_bool_key_of by lia. unfold key_ltb.
  destruct (Z.ltb_spec (s * m + p) (s' * m + p')), (Z.ltb_spec s s'),
           (Z.eqb_spec s s'), (Z.ltb_spec p p'); simpl; try reflexivity; nia.
Qed.

Lemma column_max_ge (col : list (option Z)) (p : Z) :
  In (Some p) col -> exists m, column_max col = Some m /\ p <= m.
Proof.
  induction col as [|x col IH]; intros Hin; [destruct Hin|].
  change (column_max (x :: col))
    with (match x, column_max col with
          | Some a, Some b => Some (Z.max a b)
          | Some a, None => Some a
          | None, acc => acc
          end).
  destruct Hin as [-> | Hin].
  - destruct (column_max col); eexists; split; try reflexivity; lia.
  - destruct (IH Hin) as [m [-> Hle]].
    destruct x; eexists; split; try reflexivity; lia.
Qed.

(** ** count_votes: sorting and ranking *)

Lemma in_insert_sorted {A : Type} (key : A -> option Q) (x y : A) (l : list A) :
  In y (insert_sorted key x l) <-> y = x \/ In y l.
Proof.
  induction l as [|z l IH]; simpl.
  - intuition congruence.
  - destruct (before (key x) (key z)); simpl; [intuition congruence|].
    rewrite IH. intuition congruence.
Qed.

Lemma in_sort_values {A : Type} (key : A -> option Q) (y : A) (l : list A) :
  In y (sort_values key l) <-> In y l.
Proof.
  unfold sort_values. induction l as [|x l IH]; simpl; [tauto|].
  rewrite in_insert_sorted, IH. intuition congruence.
Qed.

Lemma count_votes_eq (vote_df : list vote_row) (file_df : list File.t) :
  count_votes vote_df file_df =
  map (final_row (map snd (sorted_files vote_df file_df)))
      (sorted_files vote_df file_df).
Proof.
  unfold count_votes. fold (counted vote_df).
  rewrite (count_votes_merges vote_df file_df).
  fold (max_support_of vote_df file_df). fold (sorted_files vote_df file_df).
  unfold rank_min. rewrite <- (map_id (sorted_files vote_df file_df)) at 1.
  rewrite map_map, combine_map_map, map_map. reflexivity.
Qed.

Lemma score2_count_votes (vote_df : list vote_row) (file_df : list File.t) :
  map Scored.score2 (count_votes vote_df file_df) =
  map snd (sorted_files vote_df file_df).
Proof. rewrite count_votes_eq, map_map. reflexivity. Qed.

Lemma in_count_votes (vote_df : list vote_row) (file_df : list File.t)
    (e : Scored.t) :
  In e (count_votes vote_df file_df) <->
  exists f, In f file_df /\
    let votes := counted vote_df in
    let r := mk_merged f (score_col votes (File.num f))
                         (support_col votes (File.num f)) in
    e = final_row (map Scored.score2 (count_votes vote_df file_df))
                  (r, score2_of (max_support_of vote_df file_df) r).
Proof.
  rewrite score2_count_votes. rewrite count_votes_eq at 1.
  rewrite in_map_iff. unfold sorted_files at 2. split.
  - intros [x [<- Hx]]. apply in_sort_values in Hx.
    apply in_map_iff in Hx as [r [<- Hr]].
    unfold merged_files in Hr. apply in_map_iff in Hr as [f [<- Hf]].
    exists f. split; [exact Hf | reflexivity].
  - intros [f [Hf ->]]. eexists. split; [reflexivity|].
    apply in_sort_values. apply in_map_iff. eexists. split; [reflexivity|].
    unfold merged_files. apply in_map_iff. eauto.
Qed.

(** ** count_votes: the rows of the result *)

Lemma has_votes_false (n : string) (votes : list vote_row) :
  has_votes n votes = false -> votes_of n votes = [].
Proof.
  unfold has_votes, votes_of. intros H. apply filter_none. intros r Hr.
  destruct (String.eqb (Vote.num r) n) eqn:E; [|reflexivity].
  assert (existsb (fun r : vote_row => String.eqb (Vote.num r) n) votes = true)
    by (apply existsb_exists; eauto).
  congruence.
Qed.

Lemma has_votes_true (n : string) (votes : list vote_row) :
  has_votes n votes = true -> (1 <= List.length (votes_of n votes))%nat.
Proof.
  unfold has_votes, votes_of. intros H.
  apply existsb_exists in H as [r [Hr Hn]].
  assert (Hin : In r (filter (fun r : vote_row => String.eqb (Vote.num r) n) votes))
    by (apply filter_In; auto).
  destruct (filter _ votes); [destruct Hin | simpl; lia].
Qed.

(** What [count_votes] computes for an entry: [score] is the sum of the awards
    and [support] the number of the votes for the entry that it counts, that
    is of the votes whose error is neither NaN nor negative. *)
Lemma count_votes_score (vote_df : list vote_row) (file_df : list File.t)
    (e : Scored.t) :
  In e (count_votes vote_df file_df) ->
  Scored.score e = sum_awards (votes_of (File.num (Scored.file e)) (counted vote_df)) /\
  Scored.support e =
    Z.of_nat (List.length (votes_of (File.num (Scored.file e)) (counted vote_df))).
Proof.
  intros He. apply in_count_votes in He as [f [_ ->]]. simpl.
  unfold score_col, support_col.
  destruct (has_votes (File.num f) (counted vote_df)) eqn:E; simpl; [auto|].
  now rewrite (has_votes_false _ _ E).
Qed.

(** A rejected vote is among the counted ones: any error code from 1 to 8
    passes the test [error >= 0] as well as 0 does. *)
Lemma rejected_vote_counted (vote_df : list vote_row) (r : vote_row) (e : Z) :
  In r vote_df -> error r = Some e -> 0 <= e -> In r (counted vote_df).
Proof.
  intros Hin He Hpos. apply filter_In. split; [exact Hin|].
  rewrite He. simpl. now apply Z.leb_le.
Qed.

(** The rows of the result are of two kinds: an entry without counted votes
    has NaN as key and zeros otherwise; an entry with counted votes has the
    key [score + support / m], for the same [m] above every support, and
    rank one plus the number of keys strictly greater. *)
Lemma count_votes_rows (vote_df : list vote_row) (file_df : list File.t) :
  exists m, forall e, In e (count_votes vote_df file_df) ->
    (Scored.score2 e = None /\ Scored.score e = 0 /\ Scored.support e = 0 /\
     Scored.rank e = 0) \/
    (1 <= Scored.support e < m /\
     Scored.score2 e = Some (key_of (Scored.score e) (Scored.support e) m) /\
     Scored.rank e =
       1 + Z.of_nat (count_greater
                       (key_of (Scored.score e) (Scored.support e) m)
                       (map Scored.score2 (count_votes vote_df file_df)))).
Proof.
  exists (match max_support_of vote_df file_df with Some m => m | None => 0 end).
  intros e He. apply in_count_votes in He as [f [Hf ->]]. simpl.
  unfold score_col, support_col, score2_of. simpl.
  destruct (has_votes (File.num f) (counted vote_df)) eqn:E; simpl; [right | auto].
  apply has_votes_true in E.
  set (p := Z.of_nat (List.length (votes_of (File.num f) (counted vote_df)))) in *.
  assert (Hin : In (Some p) (map m_support (merged_files vote_df file_df))).
  { unfold merged_files. rewrite map_map. simpl. apply in_map_iff.
    exists f. split; [|exact Hf]. unfold support_col.
    destruct (has_votes (File.num f) (counted vote_df)) eqn:E';
      [reflexivity|].
    apply has_votes_false in E'. rewrite E' in E. simpl in E. lia. }
  destruct (column_max_ge _ _ Hin) as [mx [Hmx Hle]].
  unfold max_support_of. rewrite Hmx. simpl.
  repeat split; try reflexivity; lia.
Qed.

(** [rank] is min rank: one plus the number of entries with a strictly
    greater key; zero for an entry without counted votes. *)
Lemma rank_spec (vote_df : list vote_row) (file_df : list File.t) (a : Scored.t) :
  let out := count_votes vote_df file_df in
  In a out ->
  (0 < Scored.support a ->
   Scored.rank a = 1 + Z.of_nat (List.length (filter (outranks a) out))) /\
  (Scored.support a <= 0 -> Scored.rank a = 0).
Proof.
  intros out Ha. destruct (count_votes_rows vote_df file_df) as [m Hrows].
  fold out in Hrows.
  destruct (Hrows a Ha) as [[_ [_ [Hs Hr]]] | [Hsup [Hkey Hr]]].
  - split; [lia | auto].
  - split; [intros _ | lia]. rewrite Hr. do 2 f_equal.
    unfold count_greater. rewrite length_filter_map. f_equal.
    apply filter_ext_in. intros e He. unfold outranks.
    destruct (Hrows e He) as [[Hk [_ [Hs _]]] | [Hsup' [Hk _]]]; rewrite Hk.
    + rewrite Hs. reflexivity.
    + rewrite Qlt_bool_key_lex by lia.
      replace (0 <? Scored.support e) with true by (symmetry; apply Z.ltb_lt; lia).
      reflexivity.
Qed.

(** ** Ranking *)

Lemma outranks_spec (a e : Scored.t) :
  outranks a e = true <-> 0 < Scored.support e /\ key_lt a e.
Proof.
  unfold outranks, key_ltb, key_lt.
  rewrite andb_true_iff, orb_true_iff, andb_true_iff, !Z.ltb_lt, Z.eqb_eq.
  tauto.
Qed.

Lemma tied_spec (a e : Scored.t) :
  tied a e = true <->
  0 < Scored.support e /\ Scored.score e = Scored.score a /\
  Scored.support e = Scored.support a.
Proof.
  unfold tied. rewrite !andb_true_iff, Z.ltb_lt, !Z.eqb_eq. tauto.
Qed.

Section Counting.
Context {A : Type}.

Lemma length_filter_le (p q : A -> bool) (l : list A) :
  (forall y, In y l -> p y = true -> q y = true) ->
  (List.length (filter p l) <= List.length (filter q l))%nat.
Proof.
  induction l as [|y l IH]; intros H; simpl; [lia|].
  assert (IH' := IH (fun z Hz => H z (or_intror Hz))).
  destruct (p y) eqn:Hp.
  - rewrite (H y (or_introl eq_refl) Hp). simpl. lia.
  - destruct (q y); simpl; lia.
Qed.

Lemma length_filter_lt (p q : A -> bool) (l : list A) (x : A) :
  (forall y, In y l -> p y = true -> q y = true) ->
  In x l -> p x = false -> q x = true ->
  (List.length (filter p l) < List.length (filter q l))%nat.
Proof.
  induction l as [|y l IH]; intros H Hx Hp Hq; [destruct Hx|].
  simpl. assert (H' := fun z Hz => H z (or_intror Hz)).
  destruct Hx as [-> | Hx].
  - rewrite Hp, Hq. simpl. pose proof (length_filter_le p q l H'). lia.
  - specialize (IH H' Hx Hp Hq). destruct (p y) eqn:Hpy.
    + rewrite (H y (or_introl eq_refl) Hpy). simpl. lia.
    + destruct (q y); simpl; lia.
Qed.

Lemma length_filter_split (r p t : A -> bool) (l : list A) :
  (forall y, In y l -> r y = p y || t y) ->
  (forall y, In y l -> p y && t y = false) ->
  List.length (filter r l) =
  (List.length (filter p l) + List.length (filter t l))%nat.
Proof.
  induction l as [|y l IH]; intros Hr Hd; simpl; [reflexivity|].
  specialize (IH (fun z Hz => Hr z (or_intror Hz))
                 (fun z Hz => Hd z (or_intror Hz))).
  specialize (Hr y (or_introl eq_refl)). specialize (Hd y (or_introl eq_refl)).
  rewrite Hr. destruct (p y), (t y); simpl in *; try discriminate; lia.
Qed.
End Counting.

(** C3 (amended). Rank monotonicity for an entry [b] that has at least one
    counted vote: a greater score never gives a worse rank, and with equal
    scores a greater support gives a strictly better rank. An entry without
    counted votes has rank 0, whatever the other entries have. *)
Theorem rank_monotonicity (vote_df : list vote_row) (file_df : list File.t)
    (a b : Scored.t) :
  let out := count_votes vote_df file_df in
  In a out -> In b out ->
  0 < Scored.support b ->
  (Scored.score a > Scored.score b -> Scored.rank a <= Scored.rank b) /\
  (Scored.score a = Scored.score b -> Scored.support a > Scored.support b ->
   Scored.rank a < Scored.rank b) /\
  (forall e, In e out -> Scored.support e <= 0 -> Scored.rank e = 0).
Proof.
  intros out Ha Hb Hsb.
  destruct (rank_spec vote_df file_df a Ha) as [Ha1 Ha0].
  destruct (rank_spec vote_df file_df b Hb) as [Hb1 _].
  fold out in Ha1, Hb1. specialize (Hb1 Hsb).
  assert (Hlt : 0 < Scored.support a -> key_lt b a ->
                Scored.rank a < Scored.rank b).
  { intros Hsa Hk. rewrite (Ha1 Hsa), Hb1.
    assert ((List.length (filter (outranks a) out)
             < List.length (filter (outranks b) out))%nat); [|lia].
    apply (length_filter_lt _ _ _ a); [|exact Ha| |].
    - intros e _ He. apply outranks_spec in He as [Hse He].
      apply outranks_spec. split; [exact Hse|]. unfold key_lt in *. lia.
    - destruct (outranks a a) eqn:E; [|reflexivity].
      apply outranks_spec in E as [_ E]. unfold key_lt in E. lia.
    - apply outranks_spec. auto. }
  split; [|split].
  - intros Hs. destruct (Z.lt_ge_cases 0 (Scored.support a)) as [Hsa | Hsa].
    + apply Z.lt_le_incl, Hlt; [exact Hsa|]. unfold key_lt. lia.
    + rewrite (Ha0 ltac:(lia)), Hb1. lia.
  - intros Hs Hsup. apply Hlt; [lia|]. unfold key_lt. lia.
  - intros e He Hse. now apply (rank_spec vote_df file_df e He).
Qed.

(** C2 (amended). The ranking is min rank, not dense rank: entries of equal
    score and equal support have the same rank, and among the entries with
    counted votes the entry [c] with the next strictly smaller key has that
    rank plus the number of the entries tied with [a], which counts [a]
    itself. *)
Theorem min_rank_ties (vote_df : list vote_row) (file_df : list File.t)
    (a b c : Scored.t) :
  let out := count_votes vote_df file_df in
  In a out -> In b out -> In c out ->
  Scored.score a = Scored.score b -> Scored.support a = Scored.support b ->
  Scored.rank a = Scored.rank b /\
  (0 < Scored.support a -> 0 < Scored.support c ->
   key_lt c a ->
   (forall d, In d out -> 0 < Scored.support d ->
      ~ (key_lt c d /\ key_lt d a)) ->
   Scored.rank c = Scored.rank a + Z.of_nat (List.length (filter (tied a) out)) /\
   (1 <= List.length (filter (tied a) out))%nat).
Proof.
  intros out Ha Hb Hc Hs Hp.
  destruct (rank_spec vote_df file_df a Ha) as [Ha1 Ha0].
  destruct (rank_spec vote_df file_df b Hb) as [Hb1 Hb0].
  destruct (rank_spec vote_df file_df c Hc) as [Hc1 _].
  fold out in Ha1, Hb1, Hc1. split.
  - destruct (Z.lt_ge_cases 0 (Scored.support a)) as [Hsa | Hsa].
    + rewrite (Ha1 Hsa), (Hb1 ltac:(lia)). do 3 f_equal.
      apply filter_ext. intros e. unfold outranks. now rewrite Hs, Hp.
    + rewrite (Ha0 ltac:(lia)), (Hb0 ltac:(lia)). reflexivity.
  - intros Hsa Hsc Hca Hnext. rewrite (Ha1 Hsa), (Hc1 Hsc). split.
    + rewrite (length_filter_split (outranks c) (outranks a) (tied a)); [lia| |].
      * intros d Hd.
        destruct (outranks c d) eqn:Ecd, (outranks a d) eqn:Ead,
                 (tied a d) eqn:Et; try reflexivity; exfalso.
        -- apply outranks_spec in Ecd as [Hsd Hcd].
           assert (Had : ~ (0 < Scored.support d /\ key_lt a d))
             by (rewrite <- outranks_spec; congruence).
           assert (Htd : ~ (0 < Scored.support d /\
                            Scored.score d = Scored.score a /\
                            Scored.support d = Scored.support a))
             by (rewrite <- tied_spec; congruence).
           apply (Hnext d Hd Hsd). unfold key_lt in *. lia.
        -- apply tied_spec in Et as [Hsd [Hds Hdp]].
           assert (Hcd : ~ (0 < Scored.support d /\ key_lt c d))
             by (rewrite <- outranks_spec; congruence).
           unfold key_lt in *. lia.
        -- apply outranks_spec in Ead as [Hsd Had].
           assert (Hcd : ~ (0 < Scored.support d /\ key_lt c d))
             by (rewrite <- outranks_spec; congruence).
           unfold key_lt in *. lia.
        -- apply tied_spec in Et as [Hsd [Hds Hdp]].
           assert (Hcd : ~ (0 < Scored.support d /\ key_lt c d))
             by (rewrite <- outranks_spec; congruence).
           unfold key_lt in *. lia.
      * intros d _. destruct (outranks a d) eqn:Ead, (tied a d) eqn:Et;
          try reflexivity. exfalso.
        apply outranks_spec in Ead as [_ Had].
        apply tied_spec in Et as [_ [Hds Hdp]]. unfold key_lt in Had. lia.
    + assert (Hin : In a (filter (tied a) out)).
      { apply filter_In. split; [exact Ha|]. apply tied_spec. auto. }
      destruct (filter (tied a) out); [destruct Hin | simpl; lia].
Qed.

(** ** validate_voters *)

Lemma check_voter_new_and_low (site : string -> user) (start_date : Z)
    (name : string) :
  is_ip_address name = false ->
  isRegistered (site name) = true ->
  days_between start_date (registration (site name)) < 10 ->
  editCount (site name) < 50 ->
  let c := check_voter site start_date name in
  c_edit_count c = Some (editCount (site name)) /\
  (has_entered_challenge (site name) = false ->
   c_error c = LOW_EDITS /\
   c_note c = if is_blocked (site name) then 1 else 0) /\
  (has_entered_challenge (site name) = true ->
   c_error c = 0 /\ c_note c = LOW_EDITS).
Proof.
  intros Hip Hreg Hdays Hedits. unfold check_voter, has_entered_challenge.
  rewrite Hip, Hreg.
  apply Z.ltb_lt in Hdays, Hedits. rewrite Hdays, Hedits. simpl.
  destruct (existsb is_challenge_page (contributions (site name))); simpl;
    repeat split; intros; try discriminate; reflexivity.
Qed.

Lemma validate_voters_row (site : string -> user) (start_date : Z)
    (vote_df : list Vote.t) (name : string) :
  In name (map Vote.voter vote_df) -> name <> "" ->
  is_some (c_edit_count (check_voter site start_date name)) = true ->
  exists voter_df,
    validate_voters site start_date vote_df = Ok voter_df /\
    NoDup (map Voter.voter voter_df) /\
    exists w, In w voter_df /\ Voter.voter w = name /\
      Voter.error w = c_error (check_voter site start_date name) /\
      Voter.note w = c_note (check_voter site start_date name).
Proof.
  intros Hin Hne Hec. unfold validate_voters.
  set (voter_list := filter (fun v => negb (String.eqb v ""))
                            (unique (map Vote.voter vote_df))).
  assert (Hname : In name voter_list).
  { apply filter_In. split; [now apply in_unique|].
    apply String.eqb_neq in Hne. now rewrite Hne. }
  assert (Hex : existsb (fun r : string * voter_cells =>
                           is_some (c_edit_count (snd r)))
                  (map (fun v => (v, check_voter site start_date v)) voter_list)
                = true).
  { apply existsb_exists. exists (name, check_voter site start_date name).
    split; [|exact Hec]. apply in_map_iff. eauto. }
  rewrite Hex. eexists. split; [reflexivity|]. split.
  - rewrite !map_map. simpl. rewrite map_id. unfold voter_list.
    apply NoDup_filter, NoDup_unique_from.
  - eexists. split.
    + apply in_map_iff. exists (name, check_voter site start_date name).
      split; [reflexivity|]. apply in_map_iff. eauto.
    + simpl. auto.
Qed.

(** C5. Rule 3 of the voter check, for a registered voter that is not an IP
    address, has been registered for fewer than 10 days and has fewer than 50
    edits. [validate_voters] returns a frame with the voter's row. Without a
    picture entered in a challenge the row's error is LOW_EDITS: the edit
    check runs after the age check and overwrites NEW_ACCOUNT. With such a
    picture (a contribution to a page under [Commons:Photo challenge/] whose
    title has exactly one slash) the code goes to [note] and the error stays
    0. *)
Theorem new_account_with_low_edits (site : string -> user) (start_date : Z)
    (vote_df : list Vote.t) (name : string) :
  In name (map Vote.voter vote_df) -> name <> "" ->
  is_ip_address name = false ->
  isRegistered (site name) = true ->
  days_between start_date (registration (site name)) < 10 ->
  editCount (site name) < 50 ->
  exists voter_df w,
    validate_voters site start_date vote_df = Ok voter_df /\
    In w voter_df /\ Voter.voter w = name /\
    (has_entered_challenge (site name) = false -> Voter.error w = LOW_EDITS) /\
    (has_entered_challenge (site name) = true ->
     Voter.error w = 0 /\ Voter.note w = LOW_EDITS).
Proof.
  intros Hin Hne Hip Hreg Hdays Hedits.
  destruct (check_voter_new_and_low site start_date name Hip Hreg Hdays Hedits)
    as [Hec [Hno Hyes]].
  destruct (validate_voters_row site start_date vote_df name Hin Hne)
    as [voter_df [Hok [_ [w [Hw [Hname [He Hn]]]]]]].
  { now rewrite Hec. }
  exists voter_df, w. repeat split; try assumption.
  - intros H. rewrite He. now apply Hno.
  - rewrite He. now apply Hyes.
  - rewrite Hn. now apply Hyes.
Qed.

(** ** parse_voting_page *)




Lemma digit_not_space (c : ascii) : is_digit c = true -> is_space c = false.
Proof.
  unfold is_digit, is_space. intros H.
  apply andb_true_iff in H as [H1 H2]. apply Nat.leb_le in H1, H2.
  apply orb_false_iff. split; apply andb_false_iff.
  - right. apply Nat.leb_gt. lia.
  - right. apply Nat.leb_gt. lia.
Qed.

Lemma search_re_award (text g : string) :
  search re_award text = Some g ->
  exists d, is_digit d = true /\ g = String d EmptyString.
Proof.
  induction text as [|c text IH]; simpl.
  - unfold re_award, after_prefix. simpl. discriminate.
  - destruct (re_award (String c text)) as [g'|] eqn:E; [|exact IH].
    intros H. inversion H; subst g'. clear H IH.
    unfold re_award in E.
    destruct (after_prefix "{{" (String c text)) as [[|d r]|]; try discriminate.
    destruct (is_digit d) eqn:Hd; simpl in E; [|discriminate].
    destruct (String.prefix "/3*}}" r); [|discriminate].
    inversion E. eauto.
Qed.








(** ** Scenarios *)

Lemma tie_result_rows :
  tie_result = [tie_first; tie_second; tie_third; tie_fourth].
Proof. vm_compute. reflexivity. Qed.

(** C1. The scenario of the specification, run through the whole pipeline:
    the second vote of Bob is marked DUPLICATE_VOTE and the vote of Alice
    SELF_VOTE, and both are counted all the same, since [count_votes] keeps
    every vote whose error is not negative: entry 1 gets score 7 and support
    3 where the accepted votes alone give score 3 and support 1. *)
Theorem scenario_counts_rejected_votes :
  exists file_df vote_df,
    process_challenge veterans day_1000 scenario_page = Ok (file_df, vote_df) /\
    map error vote_df =
      [Some 0; Some DUPLICATE_VOTE; Some SELF_VOTE] /\
    map (fun e => (File.num (Scored.file e), Scored.score e, Scored.support e))
        file_df = [("1", 7, 3); ("2", 0, 0)] /\
    sum_awards (filter (fun r : vote_row => error_eq0 (error r)) vote_df) = 3 /\
    List.length (filter (fun r : vote_row => error_eq0 (error r)) vote_df) = 1%nat.
Proof.
  eexists. eexists. split; [vm_compute; reflexivity|].
  repeat split; vm_compute; reflexivity.
Qed.

(** C4. A Creator line or a vote line above the first section line makes the
    parser raise: the variables [num] and [fname] that the line reads are
    assigned on a section line only (and [fname] on a file line). Both parsers
    do so. *)
Theorem line_before_first_section_raises :
  parse_voting_page "<!-- '''Creator:''' [[User:Alice|Alice]] -->"
    = Raise (UnboundLocalError "num") /\
  parse_voting_page "* {{3/3*}} -- [[User:Bob|Bob]]"
    = Raise (UnboundLocalError "fname") /\
  Library.parse_voting_page "<!-- '''Creator:''' [[User:Alice|Alice]] -->"
    = Raise (UnboundLocalError "num") /\
  Library.parse_voting_page "* {{3/3*}} -- [[User:Bob|Bob]]"
    = Raise (UnboundLocalError "fname").
Proof. repeat split; vm_compute; reflexivity. Qed.

(** The unsigned vote of [anonymous_page] is parsed with an empty voter and
    an empty creator, and the pipeline gives it 7. *)
Lemma anonymous_page_votes :
  exists file_df vote_df,
    process_challenge veterans day_1000 anonymous_page = Ok (file_df, vote_df) /\
    map (fun r : vote_row => (Vote.voter r, Vote.creator r, error r)) vote_df =
      [("", "", Some SELF_VOTE); ("Bob", "", Some 0)].
Proof. eexists. eexists. split; vm_compute; reflexivity. Qed.

(** The statement of rank monotonicity fails on the tie scenario: entry 1 has
    the greater score and the worse rank than entry 4, which has rank 0. *)
Lemma rank_monotone_fails : ~ rank_monotone tie_result.
Proof.
  intros H. rewrite tie_result_rows in H.
  destruct (H tie_first tie_fourth) as [H1 _]; [simpl; auto | simpl; auto 6 |].
  assert (Hle : Scored.rank tie_first <= Scored.rank tie_fourth)
    by (apply H1; reflexivity).
  vm_compute in Hle. apply Hle. reflexivity.
Qed.

(** The statement of dense ranking fails on the tie scenario: entries 1 and 2
    share rank 1, and entry 3, the next key below, has rank 3. *)
Lemma dense_rank_fails : ~ dense_rank tie_result.
Proof.
  intros H. rewrite tie_result_rows in H.
  destruct (H tie_first tie_second tie_third
              (or_introl eq_refl) (or_intror (or_introl eq_refl))
              (or_intror (or_intror (or_introl eq_refl)))) as [_ H3].
  - discriminate.
  - reflexivity.
  - reflexivity.
  - left. reflexivity.
  - intros d Hd [Hcd Hda].
    destruct Hd as [<- | [<- | [<- | [<- | []]]]];
      unfold key_lt in *; simpl in *; lia.
  - discriminate H3.
Qed.

(** The frame of [validate_voters] has one row per voter, so that the merge
    of [validate_votes] keeps the votes in the order of the page. *)
Lemma validate_voters_distinct (site : string -> user) (start_date : Z)
    (vote_df : list Vote.t) (voter_df : list Voter.t) :
  validate_voters site start_date vote_df = Ok voter_df ->
  NoDup (map Voter.voter voter_df).
Proof.
  unfold validate_voters. destruct (existsb _ _); [|discriminate].
  intros H. inversion H. rewrite !map_map. simpl. rewrite map_id.
  apply NoDup_filter, NoDup_unique_from.
Qed.

(** ** The theorems at work *)

Ltac in_frame := vm_compute; repeat (first [left; reflexivity | right]).

Lemma new_account_with_low_edits_witness :
  (days_between day_1000 (registration (newcomers "Mallory")) < 10 /\
   editCount (newcomers "Mallory") < 50) /\
  exists voter_df w,
    validate_voters newcomers day_1000 newcomer_votes = Ok voter_df /\
    In w voter_df /\ Voter.voter w = "Mallory" /\
    (has_entered_challenge (newcomers "Mallory") = false ->
     Voter.error w = LOW_EDITS) /\
    (has_entered_challenge (newcomers "Mallory") = true ->
     Voter.error w = 0 /\ Voter.note w = LOW_EDITS).
Proof.
  split; [split; reflexivity|].
  apply (new_account_with_low_edits newcomers day_1000 newcomer_votes "Mallory");
    [simpl; auto | discriminate | reflexivity | reflexivity | reflexivity
    | reflexivity].
Defined.

Lemma amnesty_invariant_witness :
  In praise_row (validate_votes newcomer_votes newcomer_voters) /\
  error praise_row <> Some LOW_EDITS /\ vote_level_only (error praise_row).
Proof.
  assert (Hin : In praise_row (validate_votes newcomer_votes newcomer_voters))
    by in_frame.
  split; [exact Hin|].
  destruct (amnesty_invariant newcomer_votes newcomer_voters praise_row Hin
              eq_refl) as [[_ [_ [_ [H4 _]]]] [Hv _]].
  split; [exact H4 | exact Hv].
Defined.

Lemma multiple_placement_pass_witness :
  nth_error (before_multiple_placement two_firsts scenario_voters) 0
    = Some first_place_row /\
  nth_error (validate_votes two_firsts scenario_voters) 0
    = Some (with_error first_place_row (Some MULTI_PLACEMENT)).
Proof.
  assert (H0 : nth_error (before_multiple_placement two_firsts scenario_voters) 0
               = Some first_place_row) by reflexivity.
  split; [exact H0|].
  destruct (multiple_placement_pass two_firsts scenario_voters 0 first_place_row
              H0) as [_ [H _]].
  apply H; [reflexivity | apply Nat.ltb_lt; reflexivity].
Defined.

Lemma scenario_voters_distinct : NoDup (map Voter.voter scenario_voters).
Proof.
  apply NoDup_cons; [intros [H | []]; discriminate H|].
  apply NoDup_cons; [intros [] | apply NoDup_nil].
Defined.

Lemma duplicate_invariant_witness :
  (exists r, nth_error (validate_votes scenario_votes scenario_voters) 1 = Some r /\
             error r = Some DUPLICATE_VOTE) /\
  (exists r, nth_error (validate_votes scenario_votes scenario_voters) 0 = Some r /\
             error r = Some 0).
Proof.
  destruct (duplicate_invariant scenario_votes scenario_voters 0 1
              (Vote.mk "1" 3 "Bob" "Alice" "* {{3/3*}} -- [[User:Bob|Bob]]")
              (Vote.mk "1" 3 "Bob" "Alice" "* {{3/3*}} -- [[User:Bob|Bob]]")
              scenario_voters_distinct Nat.lt_0_1 eq_refl eq_refl eq_refl eq_refl)
    as [_ [[r [Hr [_ [_ H5]]]] Hfirst]].
  split.
  - exists r. split; [exact Hr|]. apply H5; discriminate.
  - destruct (Hfirst (fun k vk Hk => match Nat.nlt_0_r k Hk with end)
                (Voter.mk "Bob" 0 0 500 (Some 0)))
      as [[r0 [Hr0 [_ He0]]] _].
    + left. reflexivity.
    + reflexivity.
    + left. reflexivity.
    + discriminate.
    + discriminate.
    + intros k vk Hk _ _.
      destruct k as [|[|[|k]]]; simpl in Hk;
        try (inversion Hk; reflexivity).
      destruct k; discriminate Hk.
    + exists r0. split; assumption.
Defined.

Lemma self_vote_invariant_witness :
  In self_vote_row_example (validate_votes scenario_votes scenario_voters) /\
  error self_vote_row_example = Some SELF_VOTE.
Proof.
  assert (Hin : In self_vote_row_example
                   (validate_votes scenario_votes scenario_voters)) by in_frame.
  split; [exact Hin|].
  apply (self_vote_invariant scenario_votes scenario_voters
           self_vote_row_example Hin); [discriminate | reflexivity].
Defined.

Lemma unsigned_vote_on_empty_creator_witness :
  In unsigned_row_example (validate_votes unsigned_votes scenario_voters) /\
  error unsigned_row_example = Some SELF_VOTE /\
  error unsigned_row_example <> Some UNSIGNED.
Proof.
  assert (Hin : In unsigned_row_example
                   (validate_votes unsigned_votes scenario_voters)) by in_frame.
  split; [exact Hin|].
  destruct (unsigned_vote_on_empty_creator unsigned_votes scenario_voters
              unsigned_row_example Hin eq_refl eq_refl) as [H7 [H6 _]].
  split; assumption.
Defined.

Lemma rank_monotonicity_witness :
  (In tie_first tie_result /\ In tie_third tie_result /\
   0 < Scored.support tie_third) /\
  Scored.rank tie_first <= Scored.rank tie_third /\
  Scored.rank tie_fourth = 0.
Proof.
  assert (H1 : In tie_first tie_result) by in_frame.
  assert (H3 : In tie_third tie_result) by in_frame.
  assert (H4 : In tie_fourth tie_result) by in_frame.
  split; [split; [exact H1 | split; [exact H3 | reflexivity]]|].
  destruct (rank_monotonicity (validate_votes tie_votes tie_voters) tie_files
              tie_first tie_third H1 H3 eq_refl) as [Hle [_ H0]].
  split; [apply Hle; reflexivity|].
  apply H0; [exact H4 | discriminate].
Defined.

Lemma min_rank_ties_witness :
  Scored.rank tie_first = Scored.rank tie_second /\
  Scored.rank tie_third =
    Scored.rank tie_first + Z.of_nat (List.length (filter (tied tie_first) tie_result)).
Proof.
  assert (H1 : In tie_first tie_result) by in_frame.
  assert (H2 : In tie_second tie_result) by in_frame.
  assert (H3 : In tie_third tie_result) by in_frame.
  destruct (min_rank_ties (validate_votes tie_votes tie_voters) tie_files
              tie_first tie_second tie_third H1 H2 H3 eq_refl eq_refl)
    as [Heq Hnext].
  split; [exact Heq|].
  apply Hnext; [reflexivity | reflexivity | left; reflexivity |].
  intros d Hd _ [Hcd Hda].
  change (In d tie_result) in Hd. rewrite tie_result_rows in Hd.
  unfold key_lt in Hcd, Hda.
  destruct Hd as [<- | [<- | [<- | [<- | []]]]]; simpl in Hcd, Hda; lia.
Defined.

(** * Further properties *)

(** ** count_votes: the order of the rows *)

Lemma before_total (a b : option Q) : before a b = false -> before b a = true.
Proof.
  destruct a as [x|], b as [y|]; simpl; try discriminate; try reflexivity.
  intros H. apply Qle_bool_iff.
  destruct (Qlt_le_dec x y) as [Hlt | Hle].
  - now apply Qlt_le_weak.
  - apply Qle_bool_iff in Hle. congruence.
Qed.

Lemma before_trans (a b c : option Q) :
  before a b = true -> before b c = true -> before a c = true.
Proof.
  destruct a as [x|], b as [y|], c as [z|]; simpl; try discriminate;
    try reflexivity.
  rewrite !Qle_bool_iff. intros H1 H2. now apply (Qle_trans _ y).
Qed.

Lemma insert_sorted_perm {A : Type} (key : A -> option Q) (x : A) (l : list A) :
  Permutation (insert_sorted key x l) (x :: l).
Proof.
  induction l as [|y l IH]; simpl; [reflexivity|].
  destruct (before (key x) (key y)); [reflexivity|].
  rewrite IH. apply perm_swap.
Qed.

Lemma sort_values_perm {A : Type} (key : A -> option Q) (l : list A) :
  Permutation (sort_values key l) l.
Proof.
  unfold sort_values. induction l as [|x l IH]; simpl; [reflexivity|].
  rewrite insert_sorted_perm. now constructor.
Qed.

Lemma insert_sorted_sorted {A : Type} (key : A -> option Q) (x : A) (l : list A) :
  StronglySorted (fun a b => before (key a) (key b) = true) l ->
  StronglySorted (fun a b => before (key a) (key b) = true)
                 (insert_sorted key x l).
Proof.
  induction l as [|y l IH]; intros Hs; simpl.
  - constructor; constructor.
  - inversion Hs as [|? ? Hs' Hall]; subst.
    destruct (before (key x) (key y)) eqn:E.
    + constructor; [exact Hs|]. constructor; [exact E|].
      rewrite Forall_forall in *. intros z Hz.
      apply (before_trans _ (key y)); auto.
    + constructor; [now apply IH|].
      rewrite Forall_forall in *. intros z Hz.
      apply in_insert_sorted in Hz as [-> | Hz]; [|auto].
      now apply before_total.
Qed.

Lemma sort_values_sorted {A : Type} (key : A -> option Q) (l : list A) :
  StronglySorted (fun a b => before (key a) (key b) = true) (sort_values key l).
Proof.
  unfold sort_values. induction l as [|x l IH]; simpl; [constructor|].
  now apply insert_sorted_sorted.
Qed.

Lemma StronglySorted_nth {A : Type} (R : A -> A -> Prop) (l : list A)
    (i j : nat) (a b : A) :
  StronglySorted R l -> (i < j)%nat ->
  nth_error l i = Some a -> nth_error l j = Some b -> R a b.
Proof.
  intros Hs. revert i j. induction Hs as [|x l Hs IH Hall]; intros i j Hlt Hi Hj.
  - destruct i; discriminate.
  - destruct j as [|j]; [lia|]. simpl in Hj. destruct i as [|i]; simpl in Hi.
    + inversion Hi; subst. rewrite Forall_forall in Hall.
      apply Hall. eapply nth_error_In. exact Hj.
    + apply (IH i j); [lia | assumption | assumption].
Qed.

Lemma count_votes_files_perm (vote_df : list vote_row) (file_df : list File.t) :
  Permutation (map Scored.file (count_votes vote_df file_df)) file_df.
Proof.
  rewrite count_votes_eq, map_map. simpl.
  rewrite <- (map_map fst m_file). unfold sorted_files.
  rewrite (Permutation_map fst (sort_values_perm snd _)), !map_map. simpl.
  unfold merged_files. rewrite map_map. simpl. now rewrite map_id.
Qed.

(** X1. The result holds the entries of [file_df], each once: the left merges
    and the sort neither drop nor repeat an entry, whatever numbers the
    entries and the votes carry. *)
Theorem count_votes_permutation (vote_df : list vote_row) (file_df : list File.t) :
  Permutation (map Scored.file (count_votes vote_df file_df)) file_df.
Proof.
  apply count_votes_files_perm.
Qed.

Lemma length_count_votes (vote_df : list vote_row) (file_df : list File.t) :
  List.length (count_votes vote_df file_df) = List.length file_df.
Proof.
  rewrite <- (Permutation_length (count_votes_files_perm vote_df file_df)).
  now rewrite length_map.
Qed.

Lemma count_votes_keys_sorted (vote_df : list vote_row) (file_df : list File.t)
    (i j : nat) (a b : Scored.t) :
  (i < j)%nat ->
  nth_error (count_votes vote_df file_df) i = Some a ->
  nth_error (count_votes vote_df file_df) j = Some b ->
  before (Scored.score2 a) (Scored.score2 b) = true.
Proof.
  rewrite count_votes_eq, !nth_error_map. intros Hlt Ha Hb.
  destruct (nth_error (sorted_files vote_df file_df) i) as [x|] eqn:Hx;
    [|discriminate].
  destruct (nth_error (sorted_files vote_df file_df) j) as [y|] eqn:Hy;
    [|discriminate].
  simpl in Ha, Hb. inversion Ha; inversion Hb; subst. simpl.
  apply (StronglySorted_nth _ _ i j x y (sort_values_sorted snd _) Hlt Hx Hy).
Qed.

Lemma count_votes_key_order (vote_df : list vote_row) (file_df : list File.t)
    (i j : nat) (a b : Scored.t) :
  (i < j)%nat ->
  nth_error (count_votes vote_df file_df) i = Some a ->
  nth_error (count_votes vote_df file_df) j = Some b ->
  0 < Scored.support b ->
  0 < Scored.support a /\ ~ key_lt a b.
Proof.
  intros Hlt Ha Hb Hsb.
  pose proof (count_votes_keys_sorted vote_df file_df i j a b Hlt Ha Hb) as Hbef.
  destruct (count_votes_rows vote_df file_df) as [m Hrows].
  destruct (Hrows b (nth_error_In _ _ Hb)) as [[_ [_ [Hs _]]] | [Hpb [Hkb _]]];
    [lia|].
  destruct (Hrows a (nth_error_In _ _ Ha)) as [[Hka _] | [Hpa [Hka _]]].
  - rewrite Hka, Hkb in Hbef. discriminate.
  - split; [lia|]. rewrite Hka, Hkb in Hbef. simpl in Hbef.
    intros Hk.
    assert (Hlex : Qlt_bool (key_of (Scored.score a) (Scored.support a) m)
                            (key_of (Scored.score b) (Scored.support b) m) = true).
    { rewrite Qlt_bool_key_lex by lia. unfold key_ltb, key_lt in *.
      apply orb_true_iff. destruct Hk as [Hk | [Hk1 Hk2]].
      - left. now apply Z.ltb_lt.
      - right. apply andb_true_iff. split; [now apply Z.eqb_eq | now apply Z.ltb_lt]. }
    unfold Qlt_bool in Hlex. rewrite Hbef in Hlex. discriminate.
Qed.

(** X2. The rows of the result are in the order of the key: the entries with
    counted votes come first, by decreasing score and, at equal score, by
    decreasing support; the entries without counted votes come last. *)
Theorem count_votes_sorted (vote_df : list vote_row) (file_df : list File.t)
    (i j : nat) (a b : Scored.t) :
  (i < j)%nat ->
  nth_error (count_votes vote_df file_df) i = Some a ->
  nth_error (count_votes vote_df file_df) j = Some b ->
  0 < Scored.support b ->
  0 < Scored.support a /\ ~ key_lt a b.
Proof.
  apply count_votes_key_order.
Qed.


Lemma count_votes_rank_range (vote_df : list vote_row) (file_df : list File.t)
    (e : Scored.t) :
  In e (count_votes vote_df file_df) ->
  0 <= Scored.support e /\
  0 <= Scored.rank e <= Z.of_nat (List.length file_df) /\
  (Scored.rank e = 0 <-> Scored.support e = 0).
Proof.
  intros He.
  destruct (rank_spec vote_df file_df e He) as [Hr1 Hr0].
  destruct (count_votes_rows vote_df file_df) as [m Hrows].
  assert (Hs : 0 <= Scored.support e)
    by (destruct (Hrows e He) as [[_ [_ [Hs _]]] | [Hs _]]; lia).
  split; [exact Hs|].
  destruct (Z.eq_dec (Scored.support e) 0) as [H0 | Hne].
  - rewrite (Hr0 ltac:(lia)). repeat split; try lia; auto.
  - assert (Hpos : 0 < Scored.support e) by lia.
    rewrite (Hr1 Hpos).
    assert (Hlt : (List.length (filter (outranks e) (count_votes vote_df file_df))
                   < List.length (filter (fun _ => true)
                                         (count_votes vote_df file_df)))%nat).
    { apply (length_filter_lt _ _ _ e); auto.
      destruct (outranks e e) eqn:E; [|reflexivity].
      apply outranks_spec in E as [_ E]. unfold key_lt in E. lia. }
    assert (Hall : filter (fun _ : Scored.t => true) (count_votes vote_df file_df)
                   = count_votes vote_df file_df).
    { generalize (count_votes vote_df file_df).
      intros l; induction l as [|x l IH]; simpl; [reflexivity | now rewrite IH]. }
    rewrite Hall, length_count_votes in Hlt.
    repeat split; lia.
Qed.

(** X4. A rank is zero exactly for an entry without counted votes, and
    otherwise between one and the number of entries; a support is never
    negative. *)
Theorem count_votes_rank_bounds (vote_df : list vote_row) (file_df : list File.t)
    (e : Scored.t) :
  In e (count_votes vote_df file_df) ->
  0 <= Scored.support e /\
  0 <= Scored.rank e <= Z.of_nat (List.length file_df) /\
  (Scored.rank e = 0 <-> Scored.support e = 0).
Proof.
  apply count_votes_rank_range.
Qed.

(** ** count_votes: totals *)

Lemma sumZ_perm (l l' : list Z) : Permutation l l' -> sumZ l = sumZ l'.
Proof.
  unfold sumZ. induction 1; simpl; lia.
Qed.

Lemma fillna0_support_col (votes : list vote_row) (n : string) :
  fillna0 (support_col votes n) = Z.of_nat (List.length (votes_of n votes)).
Proof.
  unfold support_col. destruct (has_votes n votes) eqn:E; [reflexivity|].
  now rewrite (has_votes_false _ _ E).
Qed.

Lemma fillna0_score_col (votes : list vote_row) (n : string) :
  fillna0 (score_col votes n) = sum_awards (votes_of n votes).
Proof.
  unfold score_col. destruct (has_votes n votes) eqn:E; [reflexivity|].
  now rewrite (has_votes_false _ _ E).
Qed.

Lemma sum_awards_filter_split (r p t : vote_row -> bool) (l : list vote_row) :
  (forall y, In y l -> r y = p y || t y) ->
  (forall y, In y l -> p y && t y = false) ->
  sum_awards (filter r l) = sum_awards (filter p l) + sum_awards (filter t l).
Proof.
  induction l as [|y l IH]; intros Hr Hd; simpl; [reflexivity|].
  specialize (IH (fun z Hz => Hr z (or_intror Hz))
                 (fun z Hz => Hd z (or_intror Hz))).
  specialize (Hr y (or_introl eq_refl)). specialize (Hd y (or_introl eq_refl)).
  rewrite Hr. destruct (p y), (t y); simpl in *; try discriminate; lia.
Qed.

Lemma known_entry_cons (f : File.t) (fs : list File.t) (votes : list vote_row) :
  ~ In (File.num f) (map File.num fs) ->
  (forall y, In y votes ->
     known_entry (f :: fs) y =
     String.eqb (Vote.num y) (File.num f) || known_entry fs y) /\
  (forall y, In y votes ->
     String.eqb (Vote.num y) (File.num f) && known_entry fs y = false).
Proof.
  intros Hn. split; intros y _; [reflexivity|].
  destruct (String.eqb (Vote.num y) (File.num f)) eqn:E; [|reflexivity].
  apply String.eqb_eq in E. simpl.
  destruct (known_entry fs y) eqn:K; [|reflexivity]. exfalso. apply Hn.
  apply existsb_exists in K as [g [Hg Hk]]. apply String.eqb_eq in Hk.
  rewrite <- E, Hk. now apply in_map.
Qed.

Lemma entries_partition_votes (file_df : list File.t) (votes : list vote_row) :
  NoDup (map File.num file_df) ->
  sumZ (map (fun f => Z.of_nat (List.length (votes_of (File.num f) votes)))
            file_df) =
    Z.of_nat (List.length (filter (known_entry file_df) votes)) /\
  sumZ (map (fun f => sum_awards (votes_of (File.num f) votes)) file_df) =
    sum_awards (filter (known_entry file_df) votes).
Proof.
  induction file_df as [|f fs IH]; intros Hnd.
  - simpl. rewrite filter_none by reflexivity. split; reflexivity.
  - simpl in Hnd. inversion Hnd as [|? ? Hn Hnd']; subst.
    destruct (IH Hnd') as [IH1 IH2].
    destruct (known_entry_cons f fs votes Hn) as [Hor Hdis].
    change (sumZ (map ?g (f :: fs))) with (g f + sumZ (map g fs)).
    split.
    + rewrite (length_filter_split _ _ _ votes Hor Hdis).
      cbn [map]. unfold sumZ in *. simpl. rewrite IH1. unfold votes_of. lia.
    + rewrite (sum_awards_filter_split _ _ _ votes Hor Hdis).
      cbn [map]. unfold sumZ in *. simpl. rewrite IH2. unfold votes_of. lia.
Qed.

(** X5. When the entries have distinct numbers, the supports of the result
    add up to the number of counted votes for a number of [file_df], and the
    scores to the sum of their awards: no vote is counted for two entries,
    and a vote for a number that no entry has is left out. *)
Theorem count_votes_totals (vote_df : list vote_row) (file_df : list File.t) :
  NoDup (map File.num file_df) ->
  let out := count_votes vote_df file_df in
  total_support out =
    Z.of_nat (List.length (filter (known_entry file_df) (counted vote_df))) /\
  total_score out = sum_awards (filter (known_entry file_df) (counted vote_df)).
Proof.
  intros Hnd out. subst out.
  destruct (entries_partition_votes file_df (counted vote_df) Hnd) as [H1 H2].
  unfold total_support, total_score. rewrite count_votes_eq, !map_map. simpl.
  rewrite <- H1, <- H2. unfold sorted_files. split.
  - rewrite (sumZ_perm _ _ (Permutation_map
               (fun x : merged_file * option Q => fillna0 (m_support (fst x)))
               (sort_values_perm snd _))).
    rewrite map_map. unfold merged_files. rewrite map_map. simpl.
    f_equal. apply map_ext. intros f. apply fillna0_support_col.
  - rewrite (sumZ_perm _ _ (Permutation_map
               (fun x : merged_file * option Q => fillna0 (m_score (fst x)))
               (sort_values_perm snd _))).
    rewrite map_map. unfold merged_files. rewrite map_map. simpl.
    f_equal. apply map_ext. intros f. apply fillna0_score_col.
Qed.

(** ** create_result_page and create_winners_page *)

Lemma write_rows_listed (rows : list Scored.t) :
  (forall e, In e rows -> 0 <= Scored.support e) ->
  (forall i j a b, (i < j)%nat -> nth_error rows i = Some a ->
     nth_error rows j = Some b -> 0 < Scored.support b -> 0 < Scored.support a) ->
  write_rows rows =
  fold_right append ""
    (map result_row (filter (fun e => 0 <? Scored.support e) rows)).
Proof.
  induction rows as [|x l IH]; intros Hpos Hsorted; [reflexivity|].
  cbn [write_rows filter].
  destruct (Z.eqb_spec (Scored.support x) 0) as [H0 | Hne].
  - rewrite H0. cbn. rewrite filter_none; [reflexivity|].
    intros e He. apply Z.ltb_ge.
    destruct (Z.lt_ge_cases 0 (Scored.support e)) as [Hlt | Hge]; [|lia].
    apply In_nth_error in He as [k Hk].
    specialize (Hsorted 0%nat (S k) x e (Nat.lt_0_succ k) eq_refl Hk Hlt). lia.
  - assert (Hx : 0 < Scored.support x).
    { specialize (Hpos x (or_introl eq_refl)). lia. }
    apply Z.ltb_lt in Hx. rewrite Hx. cbn [map fold_right]. f_equal.
    apply IH.
    + intros e He. apply Hpos. now right.
    + intros i j a b Hlt Ha Hb. apply (Hsorted (S i) (S j) a b); [lia | | ]; assumption.
Qed.

(** X6. The table of results has a row for every entry with a counted vote
    and for no other entry: the loop stops at the first row with support 0,
    and in the frame of [count_votes] those rows come last. *)
Theorem result_table_rows (vote_df : list vote_row) (file_df : list File.t) :
  write_rows (count_votes vote_df file_df) =
  fold_right append ""
    (map result_row
         (filter (fun e => 0 <? Scored.support e) (count_votes vote_df file_df))).
Proof.
  apply write_rows_listed.
  - intros e He. now apply (count_votes_rank_range vote_df file_df e).
  - intros i j a b Hlt Ha Hb Hsb.
    now apply (count_votes_key_order vote_df file_df i j a b).
Qed.

(** X7. For a challenge label of three parts, the winners page is written
    exactly when the challenge has three entries or more, with or without
    votes; with fewer entries reading the missing row raises [IndexError]. *)
Theorem winners_page_needs_three_entries (vote_df : list vote_row)
    (file_df : list File.t) (challenge year month theme : string) :
  split_on " - " challenge = [year; month; theme] ->
  ((List.length file_df < 3)%nat ->
   LibraryReport.create_winners_page (count_votes vote_df file_df) challenge
   = Raise IndexError) /\
  ((3 <= List.length file_df)%nat ->
   exists text,
     LibraryReport.create_winners_page (count_votes vote_df file_df) challenge
     = Ok text).
Proof.
  intros Hparts. unfold LibraryReport.create_winners_page. rewrite Hparts.
  rewrite <- (length_count_votes vote_df file_df).
  destruct (count_votes vote_df file_df) as [|a [|b [|c l]]]; simpl List.length;
    split; intros Hlen; try lia; unfold winner_lines, iloc;
    cbn [nth_error bind]; try reflexivity.
  eexists. reflexivity.
Qed.

(** ** add_line_breaks *)










(** ** validate_voters: the frame of verdicts *)

Lemma check_voter_edit_count (site : string -> user) (start_date : Z)
    (name : string) :
  c_edit_count (check_voter site start_date name) =
  if is_ip_address name then None else Some (editCount (site name)).
Proof.
  unfold check_voter. destruct (is_ip_address name); [reflexivity|].
  destruct (isRegistered (site name)); [|reflexivity].
  cbn zeta.
  destruct (days_between start_date (registration (site name)) <? 10),
           (editCount (site name) <? 50); cbn [orb];
    try destruct (existsb is_challenge_page (contributions (site name)));
    reflexivity.
Qed.

Lemma check_voter_codes (site : string -> user) (start_date : Z) (name : string) :
  let c := check_voter site start_date name in
  0 <= c_error c <= 4 /\
  (c_note c = 0 \/ c_note c = 1 \/ c_note c = 3 \/ c_note c = 4) /\
  (3 <= c_note c -> c_error c = 0) /\
  (c_error c = IP_ADDRESS <-> is_ip_address name = true).
Proof.
  unfold check_voter, IP_ADDRESS. destruct (is_ip_address name).
  { simpl. repeat split; try lia; auto. }
  destruct (isRegistered (site name)).
  2:{ simpl. unfold UNREGISTERED. repeat split; try lia; auto; discriminate. }
  cbn zeta. unfold NEW_ACCOUNT, LOW_EDITS.
  destruct (days_between start_date (registration (site name)) <? 10),
           (editCount (site name) <? 50); cbn [orb];
    try destruct (existsb is_challenge_page (contributions (site name)));
    destruct (is_blocked (site name)); simpl;
    repeat split; try lia; auto; try discriminate.
Qed.

Lemma validate_voters_rows (site : string -> user) (start_date : Z)
    (vote_df : list Vote.t) (voter_df : list Voter.t) :
  validate_voters site start_date vote_df = Ok voter_df ->
  voter_df =
  map (fun v =>
         let c := check_voter site start_date v in
         Voter.mk v (c_error c) (c_note c)
                  (match c_edit_count c with Some n => n | None => -1 end)
                  (c_reg_date c))
      (filter (fun v => negb (String.eqb v ""))
              (unique (map Vote.voter vote_df))).
Proof.
  unfold validate_voters. destruct (existsb _ _); [|discriminate].
  intros H. inversion H. rewrite map_map. reflexivity.
Qed.


Lemma validate_voters_frame (site : string -> user) (start_date : Z)
    (vote_df : list Vote.t) (voter_df : list Voter.t) :
  validate_voters site start_date vote_df = Ok voter_df ->
  NoDup (map Voter.voter voter_df) /\
  (forall name, In name (map Voter.voter voter_df) <->
     name <> "" /\ In name (map Vote.voter vote_df)) /\
  (forall w, In w voter_df ->
     0 <= Voter.error w <= 4 /\
     (Voter.note w = 0 \/ Voter.note w = 1 \/ Voter.note w = 3 \/
      Voter.note w = 4) /\
     (3 <= Voter.note w -> Voter.error w = 0) /\
     (Voter.error w = IP_ADDRESS <-> is_ip_address (Voter.voter w) = true)).
Proof.
  intros Hok. split; [now apply (validate_voters_distinct site start_date vote_df)|].
  apply validate_voters_rows in Hok. subst voter_df. split.
  - intros name. rewrite map_map. simpl. rewrite map_id, filter_In, in_unique.
    rewrite negb_true_iff, String.eqb_neq. tauto.
  - intros w Hw. apply in_map_iff in Hw as [v [<- _]]. simpl.
    apply check_voter_codes.
Qed.

(** X11. The frame of [validate_voters] has one row for each name that signs
    a vote, and no other row; every row has an error from 0 to 4 and a note
    that is 0, 1, 3 or 4; a row with note 3 or 4, the new contributor with a
    picture in a challenge, has error 0; and error 1 marks the IP addresses. *)
Theorem validate_voters_verdicts (site : string -> user) (start_date : Z)
    (vote_df : list Vote.t) (voter_df : list Voter.t) :
  validate_voters site start_date vote_df = Ok voter_df ->
  NoDup (map Voter.voter voter_df) /\
  (forall name, In name (map Voter.voter voter_df) <->
     name <> "" /\ In name (map Vote.voter vote_df)) /\
  (forall w, In w voter_df ->
     0 <= Voter.error w <= 4 /\
     (Voter.note w = 0 \/ Voter.note w = 1 \/ Voter.note w = 3 \/
      Voter.note w = 4) /\
     (3 <= Voter.note w -> Voter.error w = 0) /\
     (Voter.error w = IP_ADDRESS <-> is_ip_address (Voter.voter w) = true)).
Proof.
  apply validate_voters_frame.
Qed.

(** X12. A block alone does not disqualify: a registered voter with ten days
    and fifty edits who is blocked has error 0 and note 1. A blocked new
    contributor with a picture in a challenge has error 0 too, and the note
    of the block is overwritten by the code of the check that was waived. *)
Theorem blocked_voter_verdict (site : string -> user) (start_date : Z)
    (vote_df : list Vote.t) (name : string) :
  In name (map Vote.voter vote_df) -> name <> "" ->
  is_ip_address name = false ->
  isRegistered (site name) = true ->
  is_blocked (site name) = true ->
  exists voter_df w,
    validate_voters site start_date vote_df = Ok voter_df /\
    In w voter_df /\ Voter.voter w = name /\
    (10 <= days_between start_date (registration (site name)) ->
     50 <= editCount (site name) ->
     Voter.error w = 0 /\ Voter.note w = 1) /\
    ((days_between start_date (registration (site name)) < 10 \/
      editCount (site name) < 50) ->
     has_entered_challenge (site name) = true ->
     Voter.error w = 0 /\ (Voter.note w = NEW_ACCOUNT \/ Voter.note w = LOW_EDITS)).
Proof.
  intros Hin Hne Hip Hreg Hblocked.
  destruct (validate_voters_row site start_date vote_df name Hin Hne)
    as [voter_df [Hok [_ [w [Hw [Hname [He Hn]]]]]]].
  { now rewrite check_voter_edit_count, Hip. }
  exists voter_df, w.
  split; [exact Hok|]. split; [exact Hw|]. split; [exact Hname|].
  rewrite He, Hn. unfold check_voter, has_entered_challenge.
  rewrite Hip, Hreg, Hblocked. cbn zeta. split.
  - intros Hd Hedits. apply Z.ltb_ge in Hd, Hedits. rewrite Hd, Hedits.
    simpl. split; reflexivity.
  - intros Hor Hent. rewrite Hent. unfold NEW_ACCOUNT, LOW_EDITS.
    destruct (days_between start_date (registration (site name)) <? 10) eqn:E1,
             (editCount (site name) <? 50) eqn:E2; cbn [orb]; simpl; auto.
    destruct Hor as [H | H]; apply Z.ltb_lt in H; congruence.
Qed.

(** ** validate_votes: the frame of votes *)

Lemma validate_votes_row_votes (vote_df : list Vote.t)
    (voter_df : list Voter.t) :
  NoDup (map Voter.voter voter_df) ->
  map row_vote (validate_votes vote_df voter_df) = vote_df.
Proof.
  intros Hnd. apply nth_error_ext. intros k. rewrite nth_error_map.
  destruct (nth_error (validate_votes vote_df voter_df) k) as [x|] eqn:Hx.
  - simpl. symmetry. now apply (nth_error_validate_votes vote_df voter_df Hnd).
  - simpl. destruct (nth_error vote_df k) as [v|] eqn:Hv; [|reflexivity].
    exfalso.
    pose proof (nth_error_before_multiple_placement vote_df voter_df k Hnd) as Hb.
    rewrite Hv in Hb. simpl in Hb.
    change (validate_votes vote_df voter_df)
      with (mark_multiple_placement (before_multiple_placement vote_df voter_df))
      in Hx.
    rewrite (nth_error_mark_multiple_placement _ k _ Hb) in Hx. discriminate.
Qed.

(** X13. With one row per voter in [voter_df], [validate_votes] returns the
    votes it was given, in their order, none dropped and none repeated; only
    the column [error] is new. *)
Theorem validate_votes_keeps_votes (vote_df : list Vote.t)
    (voter_df : list Voter.t) :
  NoDup (map Voter.voter voter_df) ->
  map row_vote (validate_votes vote_df voter_df) = vote_df.
Proof.
  apply validate_votes_row_votes.
Qed.

Lemma filter_all {A : Type} (p : A -> bool) (l : list A) :
  (forall x, In x l -> p x = true) -> filter p l = l.
Proof.
  induction l as [|x l IH]; intros H; simpl; [reflexivity|].
  rewrite (H x (or_introl eq_refl)), IH; [reflexivity|].
  intros y Hy. apply H. now right.
Qed.

Lemma merged_error_pipeline (site : string -> user) (start_date : Z)
    (vote_df : list Vote.t) (voter_df : list Voter.t) (r : vote_row) :
  validate_voters site start_date vote_df = Ok voter_df ->
  In r (merge_voter_error vote_df voter_df) ->
  (Vote.voter r = "" /\ error r = None) \/
  (exists e, error r = Some e /\ 0 <= e <= 4).
Proof.
  intros Hok Hr.
  destruct (validate_voters_frame site start_date vote_df voter_df Hok)
    as [Hnd [Hnames Hcodes]].
  unfold merge_voter_error in Hr. rewrite (merge_left_NoDup _ _ _ _ _ Hnd) in Hr.
  apply in_map_iff in Hr as [v [<- Hv]]. simpl.
  destruct (find _ voter_df) as [w|] eqn:Hfind; simpl.
  - right. apply find_some in Hfind as [Hw _]. exists (Voter.error w).
    split; [reflexivity|]. now apply Hcodes.
  - left. split; [|reflexivity].
    destruct (String.eqb_spec (Vote.voter v) "") as [He | Hne]; [exact He|].
    exfalso.
    assert (Hin : In (Vote.voter v) (map Voter.voter voter_df)).
    { apply Hnames. split; [exact Hne | now apply in_map]. }
    apply in_map_iff in Hin as [w [Hwv Hw]].
    pose proof (find_none _ _ Hfind w Hw) as Hf. simpl in Hf.
    apply String.eqb_neq in Hf. contradiction.
Qed.

Lemma pipeline_error_codes (site : string -> user) (start_date : Z)
    (vote_df : list Vote.t) (voter_df : list Voter.t) :
  validate_voters site start_date vote_df = Ok voter_df ->
  let out := validate_votes vote_df voter_df in
  (forall r, In r out -> exists e, error r = Some e /\ 0 <= e <= 8) /\
  counted out = out.
Proof.
  intros Hok out.
  assert (Hcodes : forall r, In r out -> exists e, error r = Some e /\ 0 <= e <= 8).
  { intros r Hr. unfold out, validate_votes in Hr.
    apply in_mark_multiple_placement in Hr as [r4 [Hr [-> | [_ ->]]]];
      [|exists MULTI_PLACEMENT; split; [reflexivity | unfold MULTI_PLACEMENT; lia]].
    apply in_mark_self_votes in Hr as [r3 [Hr ->]].
    destruct (String.eqb (Vote.voter r3) (Vote.creator r3));
      [exists SELF_VOTE; split; [reflexivity | unfold SELF_VOTE; lia]|].
    apply in_mark_unsigned in Hr as [r2 [Hr ->]].
    destruct (String.eqb_spec (Vote.voter r2) "") as [Hu | Hs];
      [exists UNSIGNED; split; [reflexivity | unfold UNSIGNED; lia]|].
    apply in_mark_duplicates in Hr as [r1 [Hr [-> | ->]]];
      [|exists DUPLICATE_VOTE; split; [reflexivity | unfold DUPLICATE_VOTE; lia]].
    apply in_amnesty in Hr as [r0 [Hr ->]].
    destruct (merged_error_pipeline site start_date vote_df voter_df r0 Hok Hr)
      as [[Hv _] | [e [He Hrange]]].
    - destruct (_ && _); simpl in Hs; contradiction.
    - destruct (_ && _); [exists 0; split; [reflexivity | lia]|].
      exists e. split; [exact He | lia]. }
  split; [exact Hcodes|].
  unfold counted. apply filter_all. intros r Hr.
  destruct (Hcodes r Hr) as [e [-> He]]. simpl. apply Z.leb_le. lia.
Qed.

(** X14. In the pipeline, with the frame of [validate_voters], every vote
    leaves [validate_votes] with an error code from 0 to 8, never NaN; so the
    test [error >= 0] of [count_votes] keeps every vote. *)
Theorem pipeline_counts_every_vote (site : string -> user) (start_date : Z)
    (vote_df : list Vote.t) (voter_df : list Voter.t) :
  validate_voters site start_date vote_df = Ok voter_df ->
  let out := validate_votes vote_df voter_df in
  (forall r, In r out -> exists e, error r = Some e /\ 0 <= e <= 8) /\
  counted out = out.
Proof.
  apply pipeline_error_codes.
Qed.

(** X15. A placement vote of a disqualified voter inherits the voter's
    code: when the vote is signed, is not a self-vote and is the first of its
    voter for its entry, its final error is the error of the voter's row. *)
Theorem inherited_disqualification (vote_df : list Vote.t)
    (voter_df : list Voter.t) (i : nat) (v : Vote.t) (w : Voter.t) :
  NoDup (map Voter.voter voter_df) ->
  nth_error vote_df i = Some v ->
  (forall k vk, (k < i)%nat -> nth_error vote_df k = Some vk ->
     vote_key vk <> vote_key v) ->
  In w voter_df -> Voter.voter w = Vote.voter v ->
  0 < Voter.error w ->
  Vote.award v <> 0 ->
  Vote.voter v <> "" -> Vote.voter v <> Vote.creator v ->
  nth_error (validate_votes vote_df voter_df) i
  = Some (mk_row v (Some (Voter.error w))).
Proof.
  intros Hnd Hi Hfirst Hw Hwv Herr Haward Hsigned Hself.
  assert (Hrow : row_before_last vote_df voter_df i v
                 = mk_row v (Some (Voter.error w))).
  { unfold row_before_last, row_after_duplicates.
    rewrite (earlier_same_key_false vote_df i v Hfirst).
    unfold merged_row. rewrite <- Hwv.
    rewrite (find_NoDup_key Voter.voter voter_df w Hnd Hw). simpl.
    unfold amnesty_row. simpl. apply Z.eqb_neq in Haward. rewrite Haward.
    simpl. apply String.eqb_neq in Hsigned, Hself.
    unfold unsigned_row. simpl. rewrite Hsigned.
    unfold self_vote_row. simpl. now rewrite Hself. }
  change (validate_votes vote_df voter_df)
    with (mark_multiple_placement (before_multiple_placement vote_df voter_df)).
  rewrite (nth_error_mark_multiple_placement _ i (mk_row v (Some (Voter.error w)))).
  2:{ rewrite nth_error_before_multiple_placement, Hi by assumption.
      simpl. now rewrite Hrow. }
  rewrite mask1_row_false_of_error; [reflexivity|].
  simpl. intros H. inversion H. lia.
Qed.

(** X16. An unsigned vote on an entry whose creator is known ends with
    UNSIGNED, whatever its award and whatever other votes there are. *)
Theorem unsigned_vote_final (vote_df : list Vote.t) (voter_df : list Voter.t)
    (r : vote_row) :
  In r (validate_votes vote_df voter_df) ->
  Vote.voter r = "" -> Vote.creator r <> "" ->
  error r = Some UNSIGNED.
Proof.
  intros Hr Hv Hc. unfold validate_votes in Hr.
  assert (H4 : forall r4,
            In r4 (mark_self_votes (mark_unsigned (mark_duplicates
                     (amnesty (merge_voter_error vote_df voter_df))))) ->
            Vote.voter r4 = "" -> Vote.creator r4 <> "" ->
            error r4 = Some UNSIGNED).
  { intros r4 Hr4 Hv4 Hc4.
    apply in_mark_self_votes in Hr4 as [r3 [Hr3 ->]].
    destruct (String.eqb_spec (Vote.voter r3) (Vote.creator r3)) as [E | E].
    - simpl in Hv4, Hc4. congruence.
    - apply in_mark_unsigned in Hr3 as [r2 [_ ->]].
      destruct (String.eqb_spec (Vote.voter r2) "") as [E2 | E2];
        [reflexivity | contradiction]. }
  apply in_mark_multiple_placement in Hr as [r4 [Hr4 [-> | [Hm ->]]]].
  - now apply H4.
  - apply mask1_row_error in Hm as [_ Hm].
    rewrite (H4 r4 Hr4 Hv Hc) in Hm. discriminate.
Qed.

(** ** parse_voting_page: the votes *)

Lemma int_award_range (line : string) (a : Z) :
  int (substr re_award line) = Ok a -> 0 <= a <= 9.
Proof.
  unfold substr. destruct (search re_award line) as [g|] eqn:E.
  - apply search_re_award in E as [d [Hd ->]].
    unfold strip. simpl. rewrite (digit_not_space d Hd). simpl.
    rewrite (digit_not_space d Hd). unfold int. simpl. rewrite Hd.
    intros H. inversion H.
    unfold is_digit in Hd. apply andb_true_iff in Hd as [Hlo Hhi].
    apply Nat.leb_le in Hlo, Hhi. lia.
  - simpl. discriminate.
Qed.

(** A line adds no vote or one vote, whose award is one decimal digit. *)
Lemma parse_line_votes (section_num : pattern) (st st' : parser_state)
    (line : string) :
  parse_line section_num st line = Ok st' ->
  votes st' = votes st \/
  exists v, votes st' = (votes st ++ [v])%list /\ 0 <= Vote.award v <= 9.
Proof.
  unfold parse_line. intros H.
  repeat match type of H with
         | context [if ?c then _ else _] => destruct c eqn:?
         | context [bind ?m _] => destruct m eqn:?; cbn [bind] in H
         | Raise _ = Ok _ => discriminate H
         end;
    inversion H; subst; cbn [votes]; auto;
    right; eexists; (split; [reflexivity|]); cbn [Vote.award];
    eapply int_award_range; eassumption.
Qed.

Lemma parse_lines_votes (section_num : pattern) (lines : list string)
    (st st' : parser_state) :
  parse_lines section_num st lines = Ok st' ->
  (forall v, In v (votes st) -> 0 <= Vote.award v <= 9) ->
  forall v, In v (votes st') -> 0 <= Vote.award v <= 9.
Proof.
  revert st. induction lines as [|line lines IH]; intros st H Hst; simpl in H.
  - inversion H; subst. exact Hst.
  - destruct (parse_line section_num st (strip line)) as [st1|] eqn:E;
      [|discriminate].
    cbn [bind] in H. apply (IH st1 H).
    destruct (parse_line_votes _ _ _ _ E) as [Hv | [v0 [Hv Hr]]]; rewrite Hv.
    + exact Hst.
    + intros v Hin. apply in_app_or in Hin as [Hin | [<- | []]]; auto.
Qed.

(** X17. Every vote that the parser returns has an award from 0 to 9: the
    award template is read with one decimal digit, of any value, so that a
    vote line with the template for 9 of 3 stars is a vote of 9 points. *)
Theorem parsed_award_range (section_num : pattern) (wiki_text : string)
    (file_df : list File.t) (vote_df : list Vote.t) :
  parse_with section_num wiki_text = Ok (file_df, vote_df) ->
  forall v, In v vote_df -> 0 <= Vote.award v <= 9.
Proof.
  unfold parse_with. intros H.
  destruct (parse_lines _ _ _) as [st|] eqn:E; [|discriminate].
  cbn [bind] in H. inversion H; subst.
  apply (parse_lines_votes _ _ _ _ E). intros v [].
Qed.

Lemma read_ok (name : string) (x : option string) (v : string) :
  read name x = Ok v -> x = Some v.
Proof. destruct x; simpl; intros H; inversion H; reflexivity. Qed.

(** The number that a line leaves in the variable [num], and the number of
    the row it adds, if it adds one. *)
Lemma parse_line_nums (section_num : pattern) (st st' : parser_state)
    (line : string) :
  parse_line section_num st line = Ok st' ->
  let n0 := if startswith "===" line then Some (substr section_num line)
            else num (vars st) in
  num (vars st') = n0 /\
  (votes st' = votes st \/
   exists v, votes st' = (votes st ++ [v])%list /\ Some (Vote.num v) = n0) /\
  (files st' = files st \/
   exists f, files st' = (files st ++ [f])%list /\ Some (File.num f) = n0).
Proof.
  unfold parse_line. intros H.
  destruct (startswith "===" line) eqn:Hsec;
    repeat match type of H with
           | context [if ?c then _ else _] => destruct c eqn:?
           | context [bind ?m _] => destruct m eqn:?; cbn [bind] in H
           | Raise _ = Ok _ => discriminate H
           end;
    inversion H; subst; cbn [vars votes files num] in *;
    repeat match goal with
           | Hr : read _ _ = Ok _ |- _ => apply read_ok in Hr
           end;
    cbn [num fname title creator voter] in *;
    (split; [reflexivity|]); split; auto;
    right; eexists; (split; [reflexivity|]);
    cbn [Vote.num File.num]; congruence.
Qed.

Lemma from_section_more (section_num : pattern) (seen more : list string)
    (n : string) :
  from_section section_num seen n -> from_section section_num (seen ++ more) n.
Proof.
  intros [l [Hl H]]. exists l. split; [apply in_or_app; now left | exact H].
Qed.

Lemma parse_lines_sections (section_num : pattern) (lines seen : list string)
    (st st' : parser_state) :
  parse_lines section_num st lines = Ok st' ->
  (forall n, num (vars st) = Some n -> from_section section_num seen n) ->
  (forall v, In v (votes st) -> from_section section_num seen (Vote.num v)) ->
  (forall f, In f (files st) -> from_section section_num seen (File.num f)) ->
  (forall v, In v (votes st') ->
     from_section section_num (seen ++ lines) (Vote.num v)) /\
  (forall f, In f (files st') ->
     from_section section_num (seen ++ lines) (File.num f)).
Proof.
  revert seen st. induction lines as [|line lines IH];
    intros seen st H Hnum Hvotes Hfiles; simpl in H.
  - inversion H; subst. rewrite app_nil_r. auto.
  - destruct (parse_line section_num st (strip line)) as [st1|] eqn:E;
      [|discriminate].
    cbn [bind] in H.
    destruct (parse_line_nums _ _ _ _ E) as [Hn1 [Hv1 Hf1]].
    assert (Hn0 : forall n,
              (if startswith "===" (strip line)
               then Some (substr section_num (strip line))
               else num (vars st)) = Some n ->
              from_section section_num (seen ++ [line]) n).
    { intros n Hn. destruct (startswith "===" (strip line)) eqn:Hs.
      - inversion Hn. exists line. split; [apply in_or_app; right; now left|].
        auto.
      - apply from_section_more. now apply Hnum. }
    replace (seen ++ line :: lines)%list with ((seen ++ [line]) ++ lines)%list
      by (now rewrite <- app_assoc).
    apply (IH (seen ++ [line])%list st1 H).
    + intros n Hn. apply Hn0. now rewrite <- Hn1.
    + intros v Hv. destruct Hv1 as [Hv1 | [v0 [Hv1 Hv0]]]; rewrite Hv1 in Hv.
      * apply from_section_more. now apply Hvotes.
      * apply in_app_or in Hv as [Hv | [<- | []]].
        -- apply from_section_more. now apply Hvotes.
        -- apply Hn0. now symmetry.
    + intros f Hf. destruct Hf1 as [Hf1 | [f0 [Hf1 Hf0]]]; rewrite Hf1 in Hf.
      * apply from_section_more. now apply Hfiles.
      * apply in_app_or in Hf as [Hf | [<- | []]].
        -- apply from_section_more. now apply Hfiles.
        -- apply Hn0. now symmetry.
Qed.

(** X18. Every entry and every vote that the parser returns carries the
    number read off a section line of the page: a row is never made with a
    number of its own. *)
Theorem parsed_rows_have_section (section_num : pattern) (wiki_text : string)
    (file_df : list File.t) (vote_df : list Vote.t) :
  parse_with section_num wiki_text = Ok (file_df, vote_df) ->
  (forall v, In v vote_df ->
     from_section section_num (splitlines wiki_text) (Vote.num v)) /\
  (forall f, In f file_df ->
     from_section section_num (splitlines wiki_text) (File.num f)).
Proof.
  unfold parse_with. intros H.
  destruct (parse_lines _ _ _) as [st|] eqn:E; [|discriminate].
  cbn [bind] in H. inversion H; subst.
  apply (parse_lines_sections _ _ [] _ _ E); simpl.
  - intros n Hn. discriminate.
  - intros v [].
  - intros f [].
Qed.


(** ** revise_voting_page *)

Lemma splitlines_from_no_break (after_cr : bool) (s : string) :
  Forall (fun l => no_break l = true) (splitlines_from after_cr s).
Proof.
  revert after_cr. induction s as [|c s IH]; intros after_cr; simpl.
  - constructor.
  - destruct (after_cr && Ascii.eqb c "010"%char); [apply IH|].
    destruct (is_linebreak c) eqn:Hc.
    + constructor; [reflexivity | apply IH].
    + specialize (IH false).
      destruct (splitlines_from false s) as [|l ls].
      * constructor; [simpl; now rewrite Hc | constructor].
      * inversion IH; subst. constructor; [simpl; now rewrite Hc | assumption].
Qed.

Lemma no_break_app (a b : string) :
  no_break (a ++ b) = no_break a && no_break b.
Proof.
  induction a as [|c a IH]; simpl; [reflexivity|].
  rewrite IH. now rewrite andb_assoc.
Qed.

Lemma replace_from_no_break (skip : nat) (old new s : string) :
  no_break new = true -> no_break s = true ->
  no_break (replace_from skip old new s) = true.
Proof.
  intros Hnew. revert skip. induction s as [|c s IH]; intros skip Hs;
    [reflexivity|].
  simpl in Hs. apply andb_true_iff in Hs as [Hc Hs].
  cbn [replace_from]. destruct skip as [|k]; [|now apply IH].
  destruct (String.prefix old (String c s)).
  - rewrite no_break_app, Hnew. now apply IH.
  - simpl. rewrite Hc. now apply IH.
Qed.

Lemma revise_line_no_break (line line' : string) :
  no_break line = true -> revise_line line = Some line' ->
  no_break line' = true.
Proof.
  intros Hl. unfold revise_line, replace.
  destruct (startswith "<!-- '''Creator" line).
  - intros H. inversion H.
    repeat (apply replace_from_no_break; [reflexivity|]). exact Hl.
  - destruct (startswith "{{Collapse bottom}}" line); [discriminate|].
    destruct (startswith "'''Voting will end" line); intros H; inversion H;
      subst; [|exact Hl].
    apply replace_from_no_break; [reflexivity | exact Hl].
Qed.

Lemma splitlines_line (l rest : string) :
  no_break l = true ->
  splitlines_from false (l ++ nl ++ rest) = l :: splitlines_from false rest.
Proof.
  induction l as [|c l IH]; intros Hl.
  - reflexivity.
  - simpl in Hl. apply andb_true_iff in Hl as [Hc Hl].
    apply negb_true_iff in Hc.
    change (String c l ++ nl ++ rest) with (String c (l ++ nl ++ rest)).
    cbn [splitlines_from andb]. rewrite Hc, (IH Hl). reflexivity.
Qed.

Lemma splitlines_written (lines : list string) :
  Forall (fun l => no_break l = true) lines ->
  splitlines (written lines) = lines.
Proof.
  unfold splitlines. induction 1 as [|l ls Hl _ IH]; [reflexivity|].
  cbn [written fold_right]. rewrite (splitlines_line _ _ Hl).
  f_equal. exact IH.
Qed.

Lemma revise_lines_written (lines : list string) :
  revise_lines lines = written (revised lines).
Proof.
  induction lines as [|l ls IH]; [reflexivity|].
  cbn [revise_lines revised flat_map].
  destruct (revise_line l) as [l'|]; cbn [app written fold_right].
  - f_equal. f_equal. exact IH.
  - exact IH.
Qed.

Lemma revised_no_break (lines : list string) :
  Forall (fun l => no_break l = true) lines ->
  Forall (fun l => no_break l = true) (revised lines).
Proof.
  induction 1 as [|l ls Hl _ IH]; [constructor|].
  cbn [revised flat_map]. destruct (revise_line l) as [l'|] eqn:E;
    cbn [app]; [|exact IH].
  constructor; [exact (revise_line_no_break _ _ Hl E) | exact IH].
Qed.

Lemma startswith_app (p s : string) :
  startswith p s = true -> exists t, s = p ++ t.
Proof.
  unfold startswith. revert s. induction p as [|a p IH]; intros s H.
  - exists s. reflexivity.
  - destruct s as [|b s]; [discriminate|]. simpl in H.
    destruct (ascii_dec a b) as [->|]; [|discriminate].
    destruct (IH s H) as [t ->]. exists t. reflexivity.
Qed.

Lemma revise_line_plain (line line' : string) :
  revise_line line = Some line' -> plain line' = true.
Proof.
  unfold revise_line.
  destruct (startswith "<!-- '''Creator" line) eqn:E1.
  - apply startswith_app in E1 as [t ->]. intros H. inversion H. reflexivity.
  - destruct (startswith "{{Collapse bottom}}" line) eqn:E2; [discriminate|].
    destruct (startswith "'''Voting will end" line) eqn:E3.
    + apply startswith_app in E3 as [t ->]. intros H. inversion H.
      destruct t; reflexivity.
    + intros H. inversion H; subst. unfold plain. now rewrite E1, E2, E3.
Qed.

Lemma revise_plain (line : string) :
  plain line = true -> revise_line line = Some line.
Proof.
  unfold plain, revise_line. intros H.
  apply andb_true_iff in H as [H H3]. apply andb_true_iff in H as [H1 H2].
  apply negb_true_iff in H1, H2, H3. now rewrite H1, H2, H3.
Qed.

Lemma revised_plain (lines : list string) :
  Forall (fun l => plain l = true) lines -> revised lines = lines.
Proof.
  induction 1 as [|l ls Hl _ IH]; [reflexivity|].
  cbn [revised flat_map]. rewrite (revise_plain _ Hl). cbn [app].
  f_equal. exact IH.
Qed.

Lemma revised_all_plain (lines : list string) :
  Forall (fun l => plain l = true) (revised lines).
Proof.
  induction lines as [|l ls IH]; [constructor|].
  cbn [revised flat_map]. destruct (revise_line l) as [l'|] eqn:E;
    cbn [app]; [|exact IH].
  constructor; [exact (revise_line_plain _ _ E) | exact IH].
Qed.

Lemma splitlines_revised (wiki_text : string) :
  splitlines (revise_voting_page wiki_text) = revised (splitlines wiki_text) /\
  Forall (fun l => plain l = true) (splitlines (revise_voting_page wiki_text)).
Proof.
  assert (H : splitlines (revise_voting_page wiki_text)
              = revised (splitlines wiki_text)).
  { unfold revise_voting_page. rewrite revise_lines_written.
    apply splitlines_written, revised_no_break, splitlines_from_no_break. }
  split; [exact H|]. rewrite H. apply revised_all_plain.
Qed.

(** X20. Reading the revised page line by line gives the lines that the
    loop wrote: one line for each line of the page that is not a
    collapse-bottom line, in the order of the page, and none of them begins
    with a marker that [revise_voting_page] acts on. *)
Theorem revised_page_lines (wiki_text : string) :
  splitlines (revise_voting_page wiki_text) = revised (splitlines wiki_text) /\
  Forall (fun l => plain l = true) (splitlines (revise_voting_page wiki_text)).
Proof.
  apply splitlines_revised.
Qed.

(** X21. Revising a revised page changes nothing. *)
Theorem revise_voting_page_idempotent (wiki_text : string) :
  revise_voting_page (revise_voting_page wiki_text)
  = revise_voting_page wiki_text.
Proof.
  destruct (splitlines_revised wiki_text) as [Hlines Hplain].
  unfold revise_voting_page at 1. rewrite revise_lines_written.
  rewrite (revised_plain _ Hplain), Hlines.
  unfold revise_voting_page. now rewrite revise_lines_written.
Qed.

Lemma prefix_empty (s : string) : String.prefix "" s = true.
Proof.
  destruct s; reflexivity.
Qed.

Lemma in_revised (lines : list string) (line line' : string) :
  In line lines -> revise_line line = Some line' -> In line' (revised lines).
Proof.
  intros Hin Hrev. unfold revised. apply in_flat_map. exists line.
  split; [exact Hin|]. rewrite Hrev. now left.
Qed.

(** X22. What the revision does to a line of the page: a line without
    marker is kept as it is, a hidden Creator line is written as a line that
    begins with the Creator label, and the line that announces the end of
    the voting is written as a line that says that the voting ended. *)
Theorem revised_page_keeps_lines (wiki_text line : string) :
  In line (splitlines wiki_text) ->
  (plain line = true -> In line (splitlines (revise_voting_page wiki_text))) /\
  (startswith "<!-- '''Creator" line = true ->
   exists line', In line' (splitlines (revise_voting_page wiki_text)) /\
                 startswith "'''Creator" line' = true) /\
  (startswith "'''Voting will end" line = true ->
   exists line', In line' (splitlines (revise_voting_page wiki_text)) /\
                 startswith "'''Voting ended" line' = true).
Proof.
  intros Hin. destruct (splitlines_revised wiki_text) as [-> _].
  split; [|split].
  - intros Hp. apply (in_revised _ line); [exact Hin | now apply revise_plain].
  - intros Hc. eexists. split.
    + apply (in_revised _ line); [exact Hin|]. unfold revise_line.
      rewrite Hc. reflexivity.
    + apply startswith_app in Hc as [t ->]. unfold startswith, replace.
      simpl. apply prefix_empty.
  - intros Hv.
    exists (replace "Voting will end" "Voting ended" line). split.
    + apply (in_revised _ line); [exact Hin|]. unfold revise_line.
      rewrite Hv. apply startswith_app in Hv as [t ->]. reflexivity.
    + apply startswith_app in Hv as [t ->]. unfold startswith, replace.
      simpl. rewrite (prefix_empty t). simpl. apply prefix_empty.
Qed.

(** ** format_array *)

Lemma removelast_snoc {A : Type} (l : list A) (x : A) :
  removelast (l ++ [x]) = l.
Proof.
  apply removelast_last.
Qed.

(** X23. For two numbers or more the text of [format_array] is the links of
    all numbers but the last, separated by commas, then the word and, then
    the link of the last number: the case of two numbers and the case of
    more agree. *)
Theorem format_array_and (init : list string) (final challenge : string) :
  init <> [] ->
  format_array (init ++ [final]) challenge =
  join ", " (map (voting_link challenge) init) ++ " and "
  ++ voting_link challenge final.
Proof.
  intros Hne. unfold format_array. rewrite map_app. cbn [map].
  set (link := voting_link challenge).
  destruct init as [|a [|b init]]; [contradiction | reflexivity |].
  cbn [map app].
  change (link a :: link b :: (map link init ++ [link final])%list)
    with ((link a :: link b :: map link init) ++ [link final])%list.
  rewrite removelast_snoc, last_last.
  destruct (map link init); reflexivity.
Qed.

(** ** The pipeline: what a score adds up *)

Lemma votes_of_row_votes (n : string) (rows : list vote_row) :
  sum_awards (votes_of n rows)
  = sumZ (map Vote.award (votes_for n (map row_vote rows))) /\
  List.length (votes_of n rows)
  = List.length (votes_for n (map row_vote rows)).
Proof.
  unfold votes_of, votes_for, sum_awards, sumZ.
  induction rows as [|r rows [IH1 IH2]]; [split; reflexivity|].
  cbn [map filter].
  destruct (String.eqb (Vote.num r) n); cbn [fold_right map length].
  - split; [now rewrite IH1 | simpl; now rewrite IH2].
  - split; assumption.
Qed.

(** X24. In the pipeline, with the frame of [validate_voters], the score of
    an entry is the sum of the awards of all the votes parsed for its
    number, and its support is their count: the votes that the checks
    marked with an error code are summed and counted with the others. *)
Theorem pipeline_score_sums_all_votes (site : string -> user) (start_date : Z)
    (vote_df : list Vote.t) (voter_df : list Voter.t) (file_df : list File.t)
    (e : Scored.t) :
  validate_voters site start_date vote_df = Ok voter_df ->
  In e (count_votes (validate_votes vote_df voter_df) file_df) ->
  Scored.score e
  = sumZ (map Vote.award (votes_for (File.num (Scored.file e)) vote_df)) /\
  Scored.support e
  = Z.of_nat (List.length (votes_for (File.num (Scored.file e)) vote_df)).
Proof.
  intros Hok He.
  destruct (count_votes_score _ _ _ He) as [Hs Hp].
  destruct (pipeline_error_codes site start_date vote_df voter_df Hok)
    as [_ Hall].
  cbv zeta in Hall. rewrite Hall in Hs, Hp.
  destruct (validate_voters_frame site start_date vote_df voter_df Hok)
    as [Hnd _].
  destruct (votes_of_row_votes (File.num (Scored.file e))
              (validate_votes vote_df voter_df)) as [H1 H2].
  rewrite (validate_votes_row_votes vote_df voter_df Hnd) in H1, H2.
  rewrite Hs, Hp, H1, H2. split; reflexivity.
Qed.

(** ** The further properties at work *)

Lemma scenario_page_parsed :
  parse_with re_section_num scenario_page = Ok (scenario_files, scenario_votes).
Proof. vm_compute. reflexivity. Defined.

Lemma scenario_voters_checked :
  validate_voters veterans day_1000 scenario_votes = Ok scenario_voters.
Proof. vm_compute. reflexivity. Defined.

Lemma tie_files_distinct : NoDup (map File.num tie_files).
Proof.
  repeat (apply NoDup_cons;
          [simpl; intros H;
           repeat (destruct H as [H | H]; [discriminate H|]); exact H|]).
  apply NoDup_nil.
Defined.

Lemma count_votes_sorted_witness :
  0 < Scored.support tie_first /\ ~ key_lt tie_first tie_third.
Proof.
  apply (count_votes_sorted (validate_votes tie_votes tie_voters) tie_files
           0 2 tie_first tie_third);
    [apply Nat.lt_0_succ | vm_compute; reflexivity | vm_compute; reflexivity
    | reflexivity].
Defined.


Lemma pipeline_score_sums_all_votes_witness :
  Scored.score scenario_first = 3 + 3 + 1 /\ Scored.support scenario_first = 3.
Proof.
  destruct (pipeline_score_sums_all_votes veterans day_1000 scenario_votes
              scenario_voters scenario_files scenario_first
              scenario_voters_checked) as [Hs Hp].
  - vm_compute. left. reflexivity.
  - split; [exact Hs | exact Hp].
Defined.

Lemma count_votes_totals_witness :
  total_support tie_result = 5 /\ total_score tie_result = 11.
Proof.
  exact (count_votes_totals (validate_votes tie_votes tie_voters) tie_files
           tie_files_distinct).
Defined.

Lemma count_votes_rank_bounds_witness :
  0 <= Scored.support tie_third /\
  0 <= Scored.rank tie_third <= Z.of_nat (List.length tie_files) /\
  (Scored.rank tie_third = 0 <-> Scored.support tie_third = 0).
Proof.
  apply (count_votes_rank_bounds (validate_votes tie_votes tie_voters)
           tie_files tie_third).
  vm_compute. right. right. left. reflexivity.
Defined.

Lemma winners_page_needs_three_entries_witness :
  LibraryReport.create_winners_page (count_votes [] (firstn 2 tie_files)) bark
  = Raise IndexError /\
  exists text, LibraryReport.create_winners_page tie_result bark = Ok text.
Proof.
  split.
  - apply (winners_page_needs_three_entries [] (firstn 2 tie_files) bark
             "2025" "August" "Bark" eq_refl).
    apply Nat.lt_succ_diag_r.
  - apply (winners_page_needs_three_entries (validate_votes tie_votes tie_voters)
             tie_files bark "2025" "August" "Bark" eq_refl).
    apply Nat.le_succ_diag_r.
Defined.



Lemma validate_voters_verdicts_witness :
  NoDup (map Voter.voter scenario_voters).
Proof.
  exact (proj1 (validate_voters_verdicts veterans day_1000 scenario_votes
                  scenario_voters scenario_voters_checked)).
Defined.

Lemma blocked_voter_verdict_witness :
  exists voter_df w,
    validate_voters blocked_veterans day_1000 scenario_votes = Ok voter_df /\
    In w voter_df /\ Voter.voter w = "Bob" /\
    Voter.error w = 0 /\ Voter.note w = 1.
Proof.
  destruct (blocked_voter_verdict blocked_veterans day_1000 scenario_votes "Bob")
    as [voter_df [w [Hok [Hin [Hname [Hold _]]]]]];
    [simpl; auto | discriminate | reflexivity | reflexivity | reflexivity |].
  exists voter_df, w. split; [exact Hok|]. split; [exact Hin|].
  split; [exact Hname|].
  apply Hold; vm_compute; discriminate.
Defined.

Lemma validate_votes_keeps_votes_witness :
  map row_vote (validate_votes scenario_votes scenario_voters) = scenario_votes.
Proof.
  exact (validate_votes_keeps_votes scenario_votes scenario_voters
           scenario_voters_distinct).
Defined.

Lemma pipeline_counts_every_vote_witness :
  counted (validate_votes scenario_votes scenario_voters)
  = validate_votes scenario_votes scenario_voters.
Proof.
  exact (proj2 (pipeline_counts_every_vote veterans day_1000 scenario_votes
                  scenario_voters scenario_voters_checked)).
Defined.

Lemma newcomer_voters_distinct : NoDup (map Voter.voter newcomer_voters).
Proof.
  apply NoDup_cons; [intros [H | []]; discriminate H|].
  apply NoDup_cons; [intros [] | apply NoDup_nil].
Defined.

Lemma inherited_disqualification_witness :
  nth_error (validate_votes newcomer_votes newcomer_voters) 0
  = Some (mk_row (Vote.mk "1" 3 "Mallory" "Alice" "a") (Some LOW_EDITS)).
Proof.
  apply (inherited_disqualification newcomer_votes newcomer_voters 0
           (Vote.mk "1" 3 "Mallory" "Alice" "a")
           (Voter.mk "Mallory" 4 0 10 (Some (86400 * 995)))
           newcomer_voters_distinct eq_refl).
  - intros k vk Hk. destruct (Nat.nlt_0_r k Hk).
  - left. reflexivity.
  - reflexivity.
  - reflexivity.
  - discriminate.
  - discriminate.
  - discriminate.
Defined.

Lemma unsigned_vote_final_witness : error stray_row = Some UNSIGNED.
Proof.
  apply (unsigned_vote_final stray_votes scenario_voters stray_row);
    [vm_compute; left; reflexivity | reflexivity | discriminate].
Defined.

Lemma parsed_award_range_witness :
  0 <= Vote.award (Vote.mk "1" 3 "Bob" "Alice" "* {{3/3*}} -- [[User:Bob|Bob]]")
    <= 9.
Proof.
  apply (parsed_award_range re_section_num scenario_page scenario_files
           scenario_votes scenario_page_parsed).
  left. reflexivity.
Defined.

Lemma parsed_rows_have_section_witness :
  from_section re_section_num (splitlines scenario_page) "1" /\
  from_section re_section_num (splitlines scenario_page) "2".
Proof.
  destruct (parsed_rows_have_section re_section_num scenario_page
              scenario_files scenario_votes scenario_page_parsed) as [Hv Hf].
  split.
  - apply (Hv (Vote.mk "1" 3 "Bob" "Alice" "* {{3/3*}} -- [[User:Bob|Bob]]")).
    left. reflexivity.
  - apply (Hf (File.mk "2" "Other.jpg" "Other]]" "Carol")).
    right. left. reflexivity.
Defined.


Lemma revised_page_keeps_lines_witness :
  exists line',
    In line' (splitlines (revise_voting_page scenario_page)) /\
    startswith "'''Creator" line' = true.
Proof.
  destruct (revised_page_keeps_lines scenario_page
              "<!-- '''Creator:''' [[User:Alice|Alice]] -->") as [_ [H _]].
  - vm_compute. right. right. left. reflexivity.
  - apply H. reflexivity.
Defined.

Lemma format_array_and_witness :
  format_array (["3"; "5"] ++ ["8"]) bark =
  join ", " (map (voting_link bark) ["3"; "5"]) ++ " and "
  ++ voting_link bark "8".
Proof.
  apply (format_array_and ["3"; "5"] "8" bark). discriminate.
Defined.
